(** * Reconciliation engine of panos-to-scm ([scm/process.py])

    A shallow embedding of the diff engine ([SCMObjectManager.needs_update],
    [get_new_and_updated_entries]), of the result aggregation
    ([Processor.analyze_results], [post_entries], [log_summary]) and of the
    rule order reconciler ([Processor.reorder_rules],
    [check_and_reorder_rules], [RuleProcessor.is_rule_order_correct]).

    Python values are an algebraic type, exceptions are an explicit sum, the
    remote gateway is a pair of state-passing functions over an abstract
    remote state, and the logger is a list of events.  The worker pools are
    run in submission order: every submitted call is executed, one after the
    other, before the first result is looked at. *)

From Stdlib Require Import String Ascii List ZArith Bool Arith Lia Permutation.
Import ListNotations.
Open Scope string_scope.
Open Scope list_scope.

Set Warnings "-register-all".
Set Default Goal Selector "!".

(** ** Python values *)

(** JSON-shaped values as the engine handles them.  Numbers are integers
    (the payloads carry no floats); a [dict] is kept as its items in
    insertion order, with string keys that are pairwise distinct. *)
Inductive value : Type :=
| VNone
| VBool (b : bool)
| VInt (n : Z)
| VStr (s : string)
| VList (l : list value)
| VDict (d : list (string * value)).

Definition record : Type := list (string * value).

Inductive exn : Type :=
| KeyError
| TypeError
| ValueError
| AttributeError
| StopIteration
| NotImplementedError
| GatewayError (msg : string).

(** ** Exceptions as a result monad *)

(** A call returns, raises, or (for the two [while] loops, which are run on
    fuel) is cut off before its loop has ended. *)

Inductive result (A : Type) : Type :=
| Ok (a : A)
| Raise (e : exn)
| OutOfFuel.
Arguments Ok {A} a.
Arguments Raise {A} e.
Arguments OutOfFuel {A}.

Definition bind {A B : Type} (m : result A) (k : A -> result B) : result B :=
  match m with
  | Ok a => k a
  | Raise e => Raise e
  | OutOfFuel => OutOfFuel
  end.

Declare Scope py_scope.
Delimit Scope py_scope with py.
Notation "x <- m ;; k" := (bind m (fun x => k))
  (at level 61, m at next level, right associativity) : py_scope.
Notation "' p <- m ;; k" := (bind m (fun x => let p := x in k))
  (at level 61, p pattern, m at next level, right associativity) : py_scope.
Open Scope py_scope.

(** [try: body except Exception as e: handler e] *)
Definition try_except {A : Type} (body : result A) (handler : exn -> result A)
  : result A :=
  match body with
  | Ok a => Ok a
  | Raise e => handler e
  | OutOfFuel => OutOfFuel
  end.

(** The outcome of a call that has returned or raised. *)
Definition of_call {A : Type} (c : exn + A) : result A :=
  match c with
  | inl e => Raise e
  | inr a => Ok a
  end.

(** ** Dictionaries and the operators of Python the engine uses *)

Fixpoint dict_get {A : Type} (k : string) (d : list (string * A)) : option A :=
  match d with
  | [] => None
  | (k', v) :: rest => if String.eqb k k' then Some v else dict_get k rest
  end.

Definition dict_has {A : Type} (k : string) (d : list (string * A)) : bool :=
  match dict_get k d with Some _ => true | None => false end.

(** [d[k] = v]: an existing key keeps its place, a new one goes last. *)
Fixpoint dict_set {A : Type} (k : string) (v : A) (d : list (string * A))
  : list (string * A) :=
  match d with
  | [] => [(k, v)]
  | (k', v') :: rest =>
      if String.eqb k k' then (k, v) :: rest else (k', v') :: dict_set k v rest
  end.

(** [d.setdefault(k, []).append(x)] *)
Definition setdefault_append {A : Type} (k : string) (x : A)
  (d : list (string * list A)) : list (string * list A) :=
  match dict_get k d with
  | Some l => dict_set k (l ++ [x]) d
  | None => dict_set k [x] d
  end.

Definition is_none (v : value) : bool :=
  match v with VNone => true | _ => false end.

Definition bool_int (b : bool) : Z := if b then 1%Z else 0%Z.

(** Python's [==] on these values: [bool] is a subtype of [int], lists are
    compared position by position, dicts key by key whatever the order. *)
Fixpoint py_eq (v1 v2 : value) : bool :=
  match v1, v2 with
  | VNone, VNone => true
  | VBool a, VBool b => Bool.eqb a b
  | VBool a, VInt n => Z.eqb (bool_int a) n
  | VInt n, VBool b => Z.eqb n (bool_int b)
  | VInt n, VInt m => Z.eqb n m
  | VStr s, VStr t => String.eqb s t
  | VList l1, VList l2 =>
      (fix eq_items (a b : list value) {struct a} : bool :=
         match a, b with
         | [], [] => true
         | x :: a', y :: b' => py_eq x y && eq_items a' b'
         | _, _ => false
         end) l1 l2
  | VDict d1, VDict d2 =>
      Nat.eqb (length d1) (length d2) &&
      (fix eq_fields (a : list (string * value)) {struct a} : bool :=
         match a with
         | [] => true
         | (k, x) :: a' =>
             match dict_get k d2 with
             | Some y => py_eq x y && eq_fields a'
             | None => false
             end
         end) d1
  | _, _ => false
  end.

(** [bool(v)] *)
Definition py_truthy (v : value) : bool :=
  match v with
  | VNone => false
  | VBool b => b
  | VInt n => negb (Z.eqb n 0)
  | VStr s => negb (String.eqb s "")
  | VList l => match l with [] => false | _ => true end
  | VDict d => match d with [] => false | _ => true end
  end.

(** [v[k]] for a string key [k] *)
Definition subscript (v : value) (k : string) : result value :=
  match v with
  | VDict d =>
      match dict_get k d with
      | Some x => Ok x
      | None => Raise KeyError
      end
  | _ => Raise TypeError
  end.

(** [r[k]] on a dict *)
Definition item (r : record) (k : string) : result value :=
  subscript (VDict r) k.

(** [v.get(k)]: only dicts have the method. *)
Definition py_get (v : value) (k : string) : result value :=
  match v with
  | VDict d =>
      match dict_get k d with
      | Some x => Ok x
      | None => Ok VNone
      end
  | _ => Raise AttributeError
  end.

(** Lists and dicts are unhashable: they cannot be set members or dict keys. *)
Definition hashable (v : value) : bool :=
  match v with
  | VList _ | VDict _ => false
  | _ => true
  end.

Definition hashed (v : value) : result value :=
  if hashable v then Ok v else Raise TypeError.

(** [x in s] for a set or the keys of a dict, [s] given by its members *)
Definition mem (x : value) (s : list value) : bool :=
  existsb (py_eq x) s.

(** [l1 == l2] on lists of values *)
Fixpoint list_eq (l1 l2 : list value) : bool :=
  match l1, l2 with
  | [], [] => true
  | x :: a, y :: b => py_eq x y && list_eq a b
  | _, _ => false
  end.

(** [l.index(x)]: position of the first element equal to [x]. *)
Fixpoint index (x : value) (l : list value) : result nat :=
  match l with
  | [] => Raise ValueError
  | y :: rest => if py_eq y x then Ok 0 else i <- index x rest ;; Ok (S i)
  end.

(** [s.replace(old, new)] where [old] is one character *)
Fixpoint replace_char (old : ascii) (new : string) (s : string) : string :=
  match s with
  | EmptyString => EmptyString
  | String c rest =>
      if Ascii.eqb c old then (new ++ replace_char old new rest)%string
      else String c (replace_char old new rest)
  end.

(** ** Diff engine *)

Module Diff.

(** [deep_compare] of [needs_update]: [true] means a difference. *)
Fixpoint deep_compare (value1 value2 : value) : bool :=
  if (py_eq value1 (VList []) && is_none value2)
     || (is_none value1 && py_eq value2 (VList []))
  then false
  else if is_none value1 && is_none value2 then false
  else if is_none value1 || is_none value2 then true
  else
    match value1, value2 with
    | VDict d1, VDict d2 =>
        (fix over_keys (items : list (string * value)) : bool :=
           match items with
           | [] => false
           | (key, v) :: rest =>
               match dict_get key d2 with
               | None => true
               | Some v2 => if deep_compare v v2 then true else over_keys rest
               end
           end) d1
    | VList l1, VList l2 =>
        if negb (Nat.eqb (length l1) (length l2)) then true
        else
          (fix over_pairs (a b : list value) {struct a} : bool :=
             match a, b with
             | item1 :: a', item2 :: b' =>
                 match item1, item2 with
                 | VDict _, VDict _ =>
                     if deep_compare item1 item2 then true
                     else over_pairs a' b'
                 | _, _ =>
                     if negb (py_eq item1 item2) then true
                     else over_pairs a' b'
                 end
             | _, _ => false
             end) l1 l2
    | _, _ => negb (py_eq value1 value2)
    end.

Section NeedsUpdate.

(** The comparison of one field, which the loop of [needs_update] wraps in
    [try ... except Exception]: it answers or raises. *)
Variable compare : value -> value -> exn + bool.

(** The f-strings of the log calls read [new_object['name']]. *)
Definition log_name (new_object : record) : result unit :=
  _ <- item new_object "name" ;; Ok tt.

(** One pass of [for key, value in new_object.items()]; [Some b] is
    [return b], [None] is the end of the loop. *)
Fixpoint compare_fields (new_object : record) (current_object : value)
  (items : record) : result (option bool) :=
  match items with
  | [] => Ok None
  | (key, value) :: rest =>
      if String.eqb key "name" then
        compare_fields new_object current_object rest
      else
        existing_value <- py_get current_object key ;;
        r <- try_except
               (changed <- of_call (compare value existing_value) ;;
                if (changed : bool) then
                  _ <- log_name new_object ;; Ok (Some true)
                else Ok None)
               (fun e => _ <- log_name new_object ;; Ok None) ;;
        match r with
        | Some b => Ok (Some b)
        | None => compare_fields new_object current_object rest
        end
  end.

Definition needs_update_with (new_object : record) (current_object : value)
  : result bool :=
  if negb (py_truthy current_object) then
    _ <- log_name new_object ;; Ok false
  else
    r <- compare_fields new_object current_object new_object ;;
    match r with
    | Some b => Ok b
    | None => _ <- log_name new_object ;; Ok false
    end.

End NeedsUpdate.

Definition needs_update : record -> value -> result bool :=
  needs_update_with (fun value1 value2 => inr (deep_compare value1 value2)).

(** An object type of [scm/obj.py]: a class with its [__name__] and its
    [_endpoint] class attribute. *)
Record obj_type : Type := ObjType {
  type_name : string;
  type_endpoint : option string
}.

Definition get_endpoint (t : obj_type) : result string :=
  match type_endpoint t with
  | None => Raise NotImplementedError
  | Some e => Ok e
  end.

Definition _generate_key_name (entry_type_name : string) : string :=
  replace_char " "%char "-" entry_type_name.

(** [set(o['name'] for o in current_set if isinstance(o, dict))] *)
Fixpoint current_names_of (current_set : list value) : result (list value) :=
  match current_set with
  | [] => Ok []
  | o :: rest =>
      match o with
      | VDict _ =>
          n <- subscript o "name" ;;
          n <- hashed n ;;
          names <- current_names_of rest ;;
          Ok (n :: names)
      | _ => current_names_of rest
      end
  end.

(** [next(o for o in current_set if o['name'] == name)] *)
Fixpoint next_named (name : value) (current_set : list value) : result value :=
  match current_set with
  | [] => Raise StopIteration
  | o :: rest =>
      n <- subscript o "name" ;;
      if py_eq n name then Ok o else next_named name rest
  end.

Definition entries : Type := list (string * list value).

(** The loop over the parsed entries of one object type. *)
Fixpoint classify_entries (entry_type_name : string)
  (current_set current_names : list value) (parsed : list value)
  (new_entries updated_entries : entries) : result (entries * entries) :=
  match parsed with
  | [] => Ok (new_entries, updated_entries)
  | parsed_obj :: rest =>
      name <- subscript parsed_obj "name" ;;
      name <- hashed name ;;
      if negb (mem name current_names) then
        classify_entries entry_type_name current_set current_names rest
          (setdefault_append entry_type_name parsed_obj new_entries)
          updated_entries
      else
        existing_obj <- next_named name current_set ;;
        existing_id <- py_get existing_obj "id" ;;
        match parsed_obj with
        | VDict d =>
            let parsed_obj_with_id := dict_set "id" existing_id d in
            changed <- needs_update parsed_obj_with_id existing_obj ;;
            classify_entries entry_type_name current_set current_names rest
              new_entries
              (if (changed : bool) then
                 setdefault_append entry_type_name (VDict parsed_obj_with_id)
                   updated_entries
               else updated_entries)
        | _ => Raise TypeError
        end
  end.

(** The loop over [current_objects.keys()]. *)
Fixpoint classify_types (parsed_data : list (string * list value))
  (current_objects : list (obj_type * list value))
  (new_entries updated_entries : entries) : result (entries * entries) :=
  match current_objects with
  | [] => Ok (new_entries, updated_entries)
  | (t, current_set) :: rest =>
      let entry_type_name := type_name t in
      let parsed_data_key := _generate_key_name entry_type_name in
      match dict_get parsed_data_key parsed_data with
      | Some parsed =>
          current_names <- current_names_of current_set ;;
          '(n, u) <- classify_entries entry_type_name current_set current_names
                       parsed new_entries updated_entries ;;
          classify_types parsed_data rest n u
      | None => classify_types parsed_data rest new_entries updated_entries
      end
  end.

Definition get_new_and_updated_entries
  (parsed_data : list (string * list value))
  (current_objects : list (obj_type * list value)) : result (entries * entries) :=
  classify_types parsed_data current_objects [] [].

End Diff.

(** ** Gateway, logger and the engine monad *)

(** [s.startswith(p)] *)
Fixpoint starts_with (p s : string) : bool :=
  match p, s with
  | EmptyString, _ => true
  | String a p', String b s' => Ascii.eqb a b && starts_with p' s'
  | String _ _, EmptyString => false
  end.

(** [s.replace(old, new)] for a non-empty [old]; [skip] counts the characters
    of a match still to be dropped. *)
Fixpoint replace_from (skip : nat) (old new s : string) : string :=
  match s with
  | EmptyString => EmptyString
  | String c rest =>
      match skip with
      | S k => replace_from k old new rest
      | O =>
          if starts_with old s
          then (new ++ replace_from (String.length old - 1) old new rest)%string
          else String c (replace_from 0 old new rest)
      end
  end.

Definition str_replace (old new s : string) : string :=
  replace_from 0 old new s.

(** The address a [post] goes to: a collection path, or the move address
    [f"{endpoint}/{rule_id}:move"] kept as its two parts. *)
Inductive url : Type :=
| Url (path : string)
| MoveUrl (endpoint : string) (rule_id : value).

(** The figures of [log_summary]; the elapsed wall-clock time of the message
    is not part of the model. *)
Record summary : Type := Summary {
  sum_message : string;
  sum_created : nat;
  sum_exists : nat;
  sum_errors : nat;
  sum_initial : nat;
  sum_missing : Z;
  sum_error_objects : list value
}.

Inductive event : Type :=
| EvNoEntries
| EvProcessing (count : nat) (endpoint_message : string)
| EvWorkers (workers : nat)
| EvResponse (response : record)
| EvPostError (e : exn)
| EvSummary (s : summary)
| EvPreparedMove (rule_name rule_id destination destination_rule_id : value)
| EvMoveError (response : record)
| EvReordering
| EvReorderTime
| EvNoNewRules (rule_type_name xml_file_path : string).

Section Engine.

(** The state of the remote service. *)
Context {R : Type}.

(** [api_handler]: [get(endpoint, folder, limit, position)] and
    [post(endpoint, data)], each of which may raise. *)
Record gateway : Type := Gateway {
  api_get : option string -> string -> string -> string -> R ->
            (exn + list record) * R;
  api_post : url -> record -> R -> (exn + record) * R
}.

Variable api_handler : gateway.

(** What a run can change: the remote, the log and the pool size of the
    [Processor]. *)
Record world : Type := World {
  remote : R;
  log : list event;
  max_workers : nat
}.

Definition eff (A : Type) : Type := world -> result A * world.

Definition ret {A : Type} (a : A) : eff A := fun w => (Ok a, w).

Definition raise {A : Type} (e : exn) : eff A := fun w => (Raise e, w).

Definition out_of_fuel {A : Type} : eff A := fun w => (OutOfFuel, w).

Definition lift {A : Type} (m : result A) : eff A := fun w => (m, w).

Definition ebind {A B : Type} (m : eff A) (k : A -> eff B) : eff B :=
  fun w =>
    match m w with
    | (Ok a, w') => k a w'
    | (Raise e, w') => (Raise e, w')
    | (OutOfFuel, w') => (OutOfFuel, w')
    end.

Definition logger (ev : event) : eff unit :=
  fun w => (Ok tt, World (remote w) (log w ++ [ev]) (max_workers w)).

Definition workers : eff nat := fun w => (Ok (max_workers w), w).

Definition set_max_workers (new_max_workers : nat) : eff unit :=
  fun w => (Ok tt, World (remote w) (log w) new_max_workers).

Definition get (endpoint : option string) (folder limit position : string)
  : eff (list record) :=
  fun w =>
    let '(r, s) := api_get api_handler endpoint folder limit position (remote w) in
    (of_call r, World s (log w) (max_workers w)).

(** One submitted [post]: the call runs, its outcome is kept in the future. *)
Definition submit_post (u : url) (data : record) : eff (exn + record) :=
  fun w =>
    let '(r, s) := api_post api_handler u data (remote w) in
    (Ok r, World s (log w) (max_workers w)).

End Engine.

Arguments gateway : clear implicits.
Arguments world : clear implicits.
Arguments eff : clear implicits.

Notation "x <~ m ;; k" := (ebind m (fun x => k))
  (at level 61, m at next level, right associativity) : py_scope.
Notation "' p <~ m ;; k" := (ebind m (fun x => let p := x in k))
  (at level 61, p pattern, m at next level, right associativity) : py_scope.

(** ** Processor: creation, aggregation, rule order *)

Module Processor.

(** [analyze_results]; the four accumulators are the loop's variables. *)
Fixpoint analyze_loop (results : list record)
  (created_count exists_count error_count : nat) (error_objects : list value)
  : nat * nat * nat * list value :=
  match results with
  | [] => (created_count, exists_count, error_count, error_objects)
  | result :: rest =>
      match dict_get "status" result, dict_get "message" result,
            dict_get "name" result with
      | Some status, Some message, Some name =>
          if py_eq status (VStr "success") then
            if py_eq message (VStr "Object processed") then
              analyze_loop rest (S created_count) exists_count error_count
                error_objects
            else
              analyze_loop rest created_count (S exists_count) error_count
                error_objects
          else if py_eq status (VStr "error creating object") then
            analyze_loop rest created_count exists_count (S error_count)
              (error_objects ++ [name])
          else
            analyze_loop rest created_count exists_count error_count
              error_objects
      | _, _, _ =>
          analyze_loop rest created_count exists_count error_count
            error_objects
      end
  end.

Definition analyze_results (results : list record)
  : nat * nat * nat * list value :=
  analyze_loop results 0 0 0 [].

(** Dicts keyed by values, as [current_rule_ids] is. *)
Definition vdict : Type := list (value * value).

Fixpoint vdict_get (k : value) (d : vdict) : option value :=
  match d with
  | [] => None
  | (k', v) :: rest => if py_eq k' k then Some v else vdict_get k rest
  end.

Fixpoint vdict_set (k v : value) (d : vdict) : vdict :=
  match d with
  | [] => [(k, v)]
  | (k', v') :: rest =>
      if py_eq k' k then (k', v) :: rest else (k', v') :: vdict_set k v rest
  end.

(** [d[k]] *)
Definition vdict_item (d : vdict) (k : value) : result value :=
  k <- hashed k ;;
  match vdict_get k d with
  | Some v => Ok v
  | None => Raise KeyError
  end.

(** [{rule['name']: rule['id'] for rule in current_rules}] *)
Fixpoint rule_ids (current_rules : list record) (acc : vdict) : result vdict :=
  match current_rules with
  | [] => Ok acc
  | rule :: rest =>
      name <- item rule "name" ;;
      id <- item rule "id" ;;
      name <- hashed name ;;
      rule_ids rest (vdict_set name id acc)
  end.

(** [[rule['name'] for rule in rules]] *)
Fixpoint names_of (rules : list record) : result (list value) :=
  match rules with
  | [] => Ok []
  | rule :: rest =>
      name <- item rule "name" ;;
      names <- names_of rest ;;
      Ok (name :: names)
  end.

(** [[rule['name'] for rule in original_rules
      if rule['name'] in current_rule_ids]] *)
Fixpoint desired_present (current_rule_ids : vdict) (original_rules : list record)
  : result (list value) :=
  match original_rules with
  | [] => Ok []
  | rule :: rest =>
      key <- item rule "name" ;;
      key <- hashed key ;;
      match vdict_get key current_rule_ids with
      | Some _ =>
          name <- item rule "name" ;;
          names <- desired_present current_rule_ids rest ;;
          Ok (name :: names)
      | None => desired_present current_rule_ids rest
      end
  end.

(** [[rule for rule in all_current_rules if rule['folder'] == folder_scope]] *)
Fixpoint scoped (folder_scope : string) (all_current_rules : list record)
  : result (list record) :=
  match all_current_rules with
  | [] => Ok []
  | rule :: rest =>
      folder <- item rule "folder" ;;
      rules <- scoped folder_scope rest ;;
      Ok (if py_eq folder (VStr folder_scope) then rule :: rules else rules)
  end.

(** [[rule['name'] for rule in rules if rule['name'] != 'default']] *)
Fixpoint names_but_default (rules : list record) : result (list value) :=
  match rules with
  | [] => Ok []
  | rule :: rest =>
      key <- item rule "name" ;;
      if negb (py_eq key (VStr "default")) then
        name <- item rule "name" ;;
        names <- names_but_default rest ;;
        Ok (name :: names)
      else names_but_default rest
  end.

Definition max_attempts : nat := 8.

Section WithGateway.

Context {R : Type}.
Variable api_handler : gateway R.

Abbreviation eff := (eff R).

Definition log_summary (initial_count created_count exists_count
  error_count : nat) (error_objects : list value) (message : string)
  : eff unit :=
  logger (EvSummary
    (Summary message created_count exists_count error_count initial_count
       (Z.of_nat initial_count - Z.of_nat (created_count + exists_count))
       error_objects)).

(** [[executor.submit(self.api_handler.post, endpoint, item_data) ...]] *)
Fixpoint submit_all (calls : list (url * record)) : eff (list (exn + record)) :=
  match calls with
  | [] => ret []
  | (u, data) :: rest =>
      f <~ submit_post api_handler u data ;;
      fs <~ submit_all rest ;;
      ret (f :: fs)
  end.

(** The [for future in as_completed(futures)] loop of [create_objects]. *)
Fixpoint gather (futures : list (exn + record)) (results : list record)
  : eff (list record) :=
  match futures with
  | [] => ret results
  | inr response :: rest =>
      _ <~ logger (EvResponse response) ;;
      gather rest (results ++ [response])
  | inl e :: rest =>
      _ <~ logger (EvPostError e) ;;
      gather rest results
  end.

Definition create_objects (scope : string) (start_index : nat)
  (endpoint : string) (data : list record) : eff (list record) :=
  n <~ workers ;;
  _ <~ logger (EvWorkers n) ;;
  let endpoint := (endpoint ++ "&folder=" ++ scope)%string in
  futures <~ submit_all
               (map (fun item_data => (Url endpoint, item_data))
                  (skipn start_index data)) ;;
  gather futures [].

Definition post_entries (folder_scope : string) (entries : list record)
  (obj_type : Diff.obj_type) (extra_query_params : string)
  : eff (nat * nat * nat) :=
  match entries with
  | [] =>
      _ <~ logger EvNoEntries ;;
      ret (0, 0, 0)
  | _ :: _ =>
      let initial_entry_count := length entries in
      e <~ lift (Diff.get_endpoint obj_type) ;;
      let endpoint_message :=
        str_replace "?" "" (str_replace "/sse/config/v1/" "" e) in
      _ <~ logger (EvProcessing (length entries) endpoint_message) ;;
      e <~ lift (Diff.get_endpoint obj_type) ;;
      let endpoint := (e ++ extra_query_params)%string in
      results <~ create_objects folder_scope 0 endpoint entries ;;
      let '(created_count, exists_count, error_count, error_objects) :=
        analyze_results results in
      _ <~ log_summary initial_entry_count created_count exists_count
             error_count error_objects endpoint_message ;;
      ret (created_count, exists_count, error_count)
  end.

(** The [for i, rule_name in enumerate(desired_order[:-1])] loop: one step
    for each pair of neighbours of [desired_order]. *)
Fixpoint plan_moves (endpoint position : string) (current_rule_ids : vdict)
  (current_order desired_order : list value) : eff (list (url * record)) :=
  match desired_order with
  | rule_name :: ((next_name :: _) as rest) =>
      i <~ lift (index rule_name current_order) ;;
      j <~ lift (index next_name current_order) ;;
      if Nat.ltb j i then
        rule_id <~ lift (vdict_item current_rule_ids rule_name) ;;
        destination_rule_id <~ lift (vdict_item current_rule_ids next_name) ;;
        let move_data :=
          [("destination", VStr "before"); ("rulebase", VStr position);
           ("destination_rule", destination_rule_id)] in
        _ <~ logger (EvPreparedMove rule_name rule_id next_name
                       destination_rule_id) ;;
        moves <~ plan_moves endpoint position current_rule_ids current_order
                   rest ;;
        ret ((MoveUrl endpoint rule_id, move_data) :: moves)
      else
        plan_moves endpoint position current_rule_ids current_order rest
  | _ => ret []
  end.

(** [for future in futures: response = future.result() ...] *)
Fixpoint check_moves (futures : list (exn + record)) : eff unit :=
  match futures with
  | [] => ret tt
  | f :: rest =>
      response <~ lift (of_call f) ;;
      status <~ lift (item response "status") ;;
      _ <~ (if negb (py_eq status (VStr "success"))
            then logger (EvMoveError response) else ret tt) ;;
      check_moves rest
  end.

(** The [while] loop of [reorder_rules], one unit of fuel for each pass
    through its body; the result is the final [attempts] and
    [current_order]. *)
Fixpoint reorder_loop (fuel : nat) (obj_type : Diff.obj_type)
  (endpoint folder_scope limit position : string) (current_rule_ids : vdict)
  (desired_order : list value) (attempts : nat) (current_order : list value)
  : eff (nat * list value) :=
  if negb (list_eq current_order desired_order)
     && Nat.ltb attempts max_attempts
  then
    match fuel with
    | O => out_of_fuel
    | S fuel' =>
        let attempts := S attempts in
        moves <~ plan_moves endpoint position current_rule_ids current_order
                   desired_order ;;
        match moves with
        | [] => ret (attempts, current_order)
        | _ :: _ =>
            n <~ workers ;;
            _ <~ logger (EvWorkers n) ;;
            futures <~ submit_all moves ;;
            _ <~ check_moves futures ;;
            e <~ lift (Diff.get_endpoint obj_type) ;;
            all_current_rules <~ get api_handler (Some e) folder_scope limit
                                   position ;;
            current_rules <~ lift (scoped folder_scope all_current_rules) ;;
            current_order <~ lift (names_but_default current_rules) ;;
            reorder_loop fuel' obj_type endpoint folder_scope limit position
              current_rule_ids desired_order attempts current_order
        end
    end
  else ret (attempts, current_order).

(** [reorder_rules] up to the end of its loop. *)
Definition reorder_rules_run (fuel : nat) (obj_type : Diff.obj_type)
  (endpoint folder_scope : string) (original_rules current_rules : list record)
  (limit position : string) : eff (nat * list value) :=
  current_rule_ids <~ lift (rule_ids current_rules []) ;;
  current_order <~ lift (names_of current_rules) ;;
  desired_order <~ lift (desired_present current_rule_ids original_rules) ;;
  reorder_loop fuel obj_type endpoint folder_scope limit position
    current_rule_ids desired_order 0 current_order.

(** [reorder_rules]: the body ends without a [return]. *)
Definition reorder_rules (fuel : nat) (obj_type : Diff.obj_type)
  (endpoint folder_scope : string) (original_rules current_rules : list record)
  (limit position : string) : eff value :=
  _ <~ reorder_rules_run fuel obj_type endpoint folder_scope original_rules
         current_rules limit position ;;
  ret VNone.

(** The [while not rules_in_correct_order] loop, one unit of fuel for each
    pass through its body; [fuel_in] is handed to [reorder_rules]. *)
Fixpoint check_loop (fuel fuel_in : nat) (obj_type : Diff.obj_type)
  (folder_scope : string) (original_rules : list record)
  (limit position : string) (rules_in_correct_order : bool) : eff unit :=
  if negb rules_in_correct_order then
    match fuel with
    | O => out_of_fuel
    | S fuel' =>
        endpoint <~ lift (Diff.get_endpoint obj_type) ;;
        e <~ lift (Diff.get_endpoint obj_type) ;;
        all_current_rules <~ get api_handler (Some e) folder_scope limit
                               position ;;
        let endpoint := str_replace "?" "" endpoint in
        current_rules <~ lift (scoped folder_scope all_current_rules) ;;
        current_order <~ lift (names_but_default current_rules) ;;
        desired_order <~ lift (names_but_default original_rules) ;;
        if negb (list_eq current_order desired_order) then
          _ <~ logger EvReordering ;;
          moves_made <~ reorder_rules fuel_in obj_type endpoint folder_scope
                          original_rules current_rules limit position ;;
          check_loop fuel' fuel_in obj_type folder_scope original_rules limit
            position (negb (py_truthy moves_made))
        else
          check_loop fuel' fuel_in obj_type folder_scope original_rules limit
            position true
    end
  else ret tt.

Definition check_and_reorder_rules (fuel fuel_in : nat)
  (obj_type : Diff.obj_type) (folder_scope : string)
  (original_rules : list record) (limit position : string) : eff unit :=
  _ <~ check_loop fuel fuel_in obj_type folder_scope original_rules limit
         position false ;;
  logger EvReorderTime.

End WithGateway.

End Processor.

Module RuleProcessor.

Definition is_rule_order_correct (current_rules desired_rules : list record)
  : result bool :=
  current_rule_names <- Processor.names_of current_rules ;;
  desired_rule_names <- Processor.names_of desired_rules ;;
  Ok (list_eq current_rule_names desired_rule_names).

End RuleProcessor.

(** ** SCMObjectManager: fetching and security rules *)

Module SCMObjectManager.

(** [set(rule['name'] for rule in rules)], by its members *)
Fixpoint name_set (rules : list record) : result (list value) :=
  match rules with
  | [] => Ok []
  | rule :: rest =>
      name <- item rule "name" ;;
      name <- hashed name ;;
      names <- name_set rest ;;
      Ok (name :: names)
  end.

(** [[rule for rule in entries if rule['name'] not in current_rule_names]] *)
Fixpoint rules_to_create (current_rule_names : list value) (entries : list record)
  : result (list record) :=
  match entries with
  | [] => Ok []
  | rule :: rest =>
      name <- item rule "name" ;;
      name <- hashed name ;;
      rules <- rules_to_create current_rule_names rest ;;
      Ok (if negb (mem name current_rule_names) then rule :: rules else rules)
  end.

(** [parsed_data[key]] *)
Definition parsed_item {A : Type} (parsed_data : list (string * A)) (key : string)
  : result A :=
  match dict_get key parsed_data with
  | Some x => Ok x
  | None => Raise KeyError
  end.

Section WithGateway.

Context {R : Type}.
Variable api_handler : gateway R.

(** [self.folder_scope] *)
Variable folder_scope : string.

Abbreviation eff := (eff R).

Definition fetch_objects (obj_type : Diff.obj_type) (limit position : string)
  : eff (list record) :=
  let endpoint := Diff.type_endpoint obj_type in
  all_objects <~ get api_handler endpoint folder_scope limit position ;;
  ret all_objects.

Definition fetch_rules (obj_type : Diff.obj_type) (limit position : string)
  : eff (list record) :=
  let endpoint := Diff.type_endpoint obj_type in
  all_objects <~ get api_handler endpoint folder_scope limit position ;;
  ret (filter (fun o => dict_has "name" o && dict_has "folder" o) all_objects).

Definition reorder_rules_if_needed (fuel fuel_in : nat)
  (sec_obj : Diff.obj_type) (security_rule_entries current_rules : list record)
  (position : string) : eff unit :=
  correct <~ lift (RuleProcessor.is_rule_order_correct current_rules
                     security_rule_entries) ;;
  if negb correct then
    _ <~ set_max_workers 4 ;;
    Processor.check_and_reorder_rules api_handler fuel fuel_in sec_obj
      folder_scope security_rule_entries "10000" position
  else ret tt.

(** [for rules, extra_query_param, rule_type_name in rule_types] *)
Fixpoint post_rule_types (sec_obj : Diff.obj_type) (xml_file_path : string)
  (rule_types : list (list record * string * string)) : eff unit :=
  match rule_types with
  | [] => ret tt
  | (rules, extra_query_param, rule_type_name) :: rest =>
      _ <~ match rules with
           | _ :: _ =>
               _ <~ set_max_workers 4 ;;
               _ <~ Processor.post_entries api_handler folder_scope rules
                      sec_obj extra_query_param ;;
               ret tt
           | [] => logger (EvNoNewRules rule_type_name xml_file_path)
           end ;;
      post_rule_types sec_obj xml_file_path rest
  end.

Definition process_security_rules (fuel fuel_in : nat)
  (sec_obj : Diff.obj_type) (parsed_data : list (string * list record))
  (xml_file_path limit : string) : eff unit :=
  pre_rules <~ fetch_rules sec_obj limit "pre" ;;
  post_rules <~ fetch_rules sec_obj limit "post" ;;
  current_rules_pre <~ lift (Processor.scoped folder_scope pre_rules) ;;
  current_rules_post <~ lift (Processor.scoped folder_scope post_rules) ;;
  current_rule_names_pre <~ lift (name_set current_rules_pre) ;;
  current_rule_names_post <~ lift (name_set current_rules_post) ;;
  security_rule_pre_entries <~
    lift (parsed_item parsed_data "security_pre_rules") ;;
  security_rule_post_entries <~
    lift (parsed_item parsed_data "security_post_rules") ;;
  rules_to_create_pre <~
    lift (rules_to_create current_rule_names_pre security_rule_pre_entries) ;;
  rules_to_create_post <~
    lift (rules_to_create current_rule_names_post security_rule_post_entries) ;;
  let rule_types :=
    [(rules_to_create_pre, "position=pre", "pre-rules");
     (rules_to_create_post, "position=post", "post-rules")] in
  _ <~ post_rule_types sec_obj xml_file_path rule_types ;;
  _ <~ reorder_rules_if_needed fuel fuel_in sec_obj security_rule_pre_entries
         current_rules_pre "pre" ;;
  reorder_rules_if_needed fuel fuel_in sec_obj security_rule_post_entries
    current_rules_post "post".

End WithGateway.

End SCMObjectManager.

(** ** A remote that keeps its rules in order *)

(** The remote of the reorder scenarios: its state is the rule list, [get]
    returns it, and the move primitive takes the rule of the address and puts
    it immediately before the rule named by [destination_rule]. *)
Module OrderedRemote.

Definition has_id (id : value) (rule : record) : bool :=
  match dict_get "id" rule with
  | Some i => py_eq i id
  | None => false
  end.

Fixpoint take_out (id : value) (rules : list record) : list record :=
  match rules with
  | [] => []
  | rule :: rest => if has_id id rule then rest else rule :: take_out id rest
  end.

Fixpoint put_before (moved : record) (destination : value) (rules : list record)
  : list record :=
  match rules with
  | [] => []
  | rule :: rest =>
      if has_id destination rule then moved :: rule :: rest
      else rule :: put_before moved destination rest
  end.

Definition move_before (id destination : value) (rules : list record)
  : option (list record) :=
  match find (has_id id) rules with
  | Some moved =>
      let others := take_out id rules in
      if existsb (has_id destination) others
      then Some (put_before moved destination others)
      else None
  | None => None
  end.

Definition move (u : url) (data : record) (rules : list record)
  : (exn + record) * list record :=
  match u, dict_get "destination_rule" data with
  | MoveUrl _ id, Some destination =>
      match move_before id destination rules with
      | Some rules' => (inr [("status", VStr "success")], rules')
      | None => (inr [("status", VStr "error")], rules)
      end
  | _, _ => (inl (GatewayError "not a move"), rules)
  end.

Definition handler : gateway (list record) :=
  Gateway (fun _ _ _ _ rules => (inr rules, rules)) move.

End OrderedRemote.

(** ** The status and message contract of the gateway, in the spec's words *)

Module Contract.

(** The value of a field of a result, [None] when the field is not there. *)
Definition field (k : string) (r : record) : value :=
  match dict_get k r with
  | Some v => v
  | None => VNone
  end.

(** A result of [post] carries [status], [message] and [name]. *)
Definition gateway_result (r : record) : Prop :=
  dict_has "status" r = true /\ dict_has "message" r = true
  /\ dict_has "name" r = true.

Definition succeeded (r : record) : bool :=
  py_eq (field "status" r) (VStr "success").

Definition processed (r : record) : bool :=
  py_eq (field "message" r) (VStr "Object processed").

Definition created (r : record) : bool := succeeded r && processed r.

Definition already_existed (r : record) : bool :=
  succeeded r && negb (processed r).

Definition failed (r : record) : bool :=
  negb (succeeded r) && py_eq (field "status" r) (VStr "error creating object").

End Contract.

(** ** Sample data *)

Definition sample_results : list record :=
  [ [("status", VStr "success"); ("message", VStr "Object processed");
     ("name", VStr "r1")];
    [("status", VStr "success"); ("message", VStr "Object already exists");
     ("name", VStr "r2")];
    [("status", VStr "error creating object"); ("message", VStr "bad request");
     ("name", VStr "r3")] ].

(** ** Termination of a computation *)

(** A computation halts when it returns or raises, that is, when it is not
    cut off for lack of fuel. *)
Definition halts {A : Type} (m : result A) : Prop := m <> OutOfFuel.

Definition ehalts {R A : Type} (m : eff R A) : Prop :=
  forall w : world R, fst (m w) <> OutOfFuel.

(** ** One pass of [check_and_reorder_rules] *)

(** The body of the loop of [check_and_reorder_rules] run once, followed by
    the closing log line: what the function amounts to if its loop never
    takes a second turn. *)
Definition check_single_pass {R : Type} (api_handler : gateway R)
  (fuel_in : nat) (obj_type : Diff.obj_type) (folder_scope : string)
  (original_rules : list record) (limit position : string) : eff R unit :=
  endpoint <~ lift (Diff.get_endpoint obj_type) ;;
  e <~ lift (Diff.get_endpoint obj_type) ;;
  all_current_rules <~ get api_handler (Some e) folder_scope limit position ;;
  let endpoint := str_replace "?" "" endpoint in
  current_rules <~ lift (Processor.scoped folder_scope all_current_rules) ;;
  current_order <~ lift (Processor.names_but_default current_rules) ;;
  desired_order <~ lift (Processor.names_but_default original_rules) ;;
  _ <~ (if negb (list_eq current_order desired_order) then
          _ <~ logger EvReordering ;;
          _ <~ Processor.reorder_rules api_handler fuel_in obj_type endpoint
                 folder_scope original_rules current_rules limit position ;;
          ret tt
        else ret tt) ;;
  logger EvReorderTime.

(** ** Sample object types and worlds *)

Definition SecurityRule : Diff.obj_type :=
  Diff.ObjType "SecurityRule" (Some "/sse/config/v1/security-rules?").

Definition rule (name id folder : string) : record :=
  [("id", VStr id); ("name", VStr name); ("folder", VStr folder)].

Definition start (rules : list record) : world (list record) :=
  World rules [] 4.


Definition rules_ABC : list record :=
  [rule "A" "1" "Mobile Users"; rule "B" "2" "Mobile Users";
   rule "C" "3" "Mobile Users"].

Definition desired_CAB : list record :=
  [[("name", VStr "C")]; [("name", VStr "A")]; [("name", VStr "B")]].


Definition Address : Diff.obj_type :=
  Diff.ObjType "Address" (Some "/sse/config/v1/addresses?").

(** Rules [A], [B] and the sentinel, all of the scope, and a desired order
    that names the sentinel too. *)
Definition rules_AB_default : list record :=
  [rule "A" "1" "Mobile Users"; rule "B" "2" "Mobile Users";
   rule "default" "0" "Mobile Users"].

Definition desired_BA_default : list record :=
  [[("name", VStr "B")]; [("name", VStr "A")]; [("name", VStr "default")]].

(** An address object that lives in another folder than the scope. *)
Definition shared_web : record := rule "web" "7" "Shared".


(** ** Field-by-field reading of [needs_update] *)

(** [current_object.get(key)] on a dict *)
Definition existing (current : record) (key : string) : value :=
  match dict_get key current with
  | Some x => x
  | None => VNone
  end.

(** A field counts as changed when it is not [name] and its comparison
    answers [True]; a comparison that raises counts as no difference. *)
Definition field_changed (compare : value -> value -> exn + bool)
  (current : record) (kv : string * value) : bool :=
  negb (String.eqb (fst kv) "name")
  && match compare (snd kv) (existing current (fst kv)) with
     | inr true => true
     | _ => false
     end.

(** A comparison that cannot handle nested lists. *)
Definition fragile_compare (value1 value2 : value) : exn + bool :=
  match value1 with
  | VList (VList _ :: _) => inl TypeError
  | _ => inr (Diff.deep_compare value1 value2)
  end.


(** ** The classification, record by record *)

Module Classify.

(** The [name] of a record ([None] when there is none). *)
Definition vname (v : value) : value :=
  match v with
  | VDict d => existing d "name"
  | _ => VNone
  end.

(** A record of the data model: a mapping with a (hashable) [name]. *)
Definition is_record (v : value) : Prop :=
  exists d n, v = VDict d /\ dict_get "name" d = Some n /\ hashable n = true.

(** Some current record has the name of [p]. *)
Definition named_in (current : list value) (p : value) : bool :=
  existsb (fun o => py_eq (vname p) (vname o)) current.

(** The first current record with the name of [p]. *)
Definition matched (current : list value) (p : value) : option value :=
  find (fun o => py_eq (vname o) (vname p)) current.

(** [p] with the [id] of its current record attached. *)
Definition attach (current : list value) (p : value) : value :=
  match matched current p, p with
  | Some (VDict c), VDict d => VDict (dict_set "id" (existing c "id") d)
  | _, _ => p
  end.

(** [needs_update] answers [True] for [p] against its current record. *)
Definition changed (current : list value) (p : value) : bool :=
  match matched current p, attach current p with
  | Some o, VDict d =>
      match Diff.needs_update d o with
      | Ok b => b
      | _ => false
      end
  | _, _ => false
  end.

Definition is_new (current : list value) (p : value) : bool :=
  negb (named_in current p).

Definition is_updated (current : list value) (p : value) : bool :=
  named_in current p && changed current p.



End Classify.

Definition parsed_addresses : list value :=
  [VDict [("name", VStr "web"); ("ip_netmask", VStr "10.0.0.1/32")];
   VDict [("name", VStr "db"); ("ip_netmask", VStr "10.0.0.2/32")];
   VDict [("name", VStr "dns"); ("ip_netmask", VStr "10.0.0.3/32")]].

Definition current_addresses : list value :=
  [VDict [("id", VStr "7"); ("name", VStr "web"); ("folder", VStr "Mobile Users");
          ("ip_netmask", VStr "10.0.0.1/32")];
   VDict [("id", VStr "8"); ("name", VStr "db"); ("folder", VStr "Mobile Users");
          ("ip_netmask", VStr "10.0.0.9/32")]].


(** ** The counted results of [analyze_results] *)

Module Tally.

(** The guard of the loop body: the result has the three keys. *)
Definition counted (r : record) : bool :=
  dict_has "status" r && dict_has "message" r && dict_has "name" r.

Definition is_created (r : record) : bool := counted r && Contract.created r.

Definition is_existing (r : record) : bool :=
  counted r && Contract.already_existed r.

Definition is_failed (r : record) : bool := counted r && Contract.failed r.

End Tally.


(** ** Values as Python holds them *)

(** The keys of a dict are pairwise distinct. *)
Fixpoint distinct_keys {A : Type} (d : list (string * A)) : bool :=
  match d with
  | [] => true
  | (k, _) :: rest => negb (dict_has k rest) && distinct_keys rest
  end.

(** A value all of whose dicts, at any depth, have distinct keys. *)
Fixpoint proper (v : value) : bool :=
  match v with
  | VList l =>
      (fix all (l : list value) : bool :=
         match l with
         | [] => true
         | x :: rest => proper x && all rest
         end) l
  | VDict d =>
      distinct_keys d
      && (fix all (d : list (string * value)) : bool :=
            match d with
            | [] => true
            | (_, x) :: rest => proper x && all rest
            end) d
  | _ => true
  end.


(** ** Characters of a string *)

(** [c in s] for a character [c] *)
Fixpoint has_char (c : ascii) (s : string) : bool :=
  match s with
  | EmptyString => false
  | String a rest => Ascii.eqb a c || has_char c rest
  end.


(** ** The object types of [scm/obj.py] *)

Module Obj.

(** The base class: [_endpoint = None]. *)
Definition PanApiHandler : Diff.obj_type := Diff.ObjType "PanApiHandler" None.

Definition SecurityRule : Diff.obj_type :=
  Diff.ObjType "SecurityRule" (Some "/sse/config/v1/security-rules?").

Definition Address : Diff.obj_type :=
  Diff.ObjType "Address" (Some "/sse/config/v1/addresses?").

Definition AddressGroup : Diff.obj_type :=
  Diff.ObjType "AddressGroup" (Some "/sse/config/v1/address-groups?").

Definition Service : Diff.obj_type :=
  Diff.ObjType "Service" (Some "/sse/config/v1/services?").

Definition ServiceGroup : Diff.obj_type :=
  Diff.ObjType "ServiceGroup" (Some "/sse/config/v1/service-groups?").

Definition Application : Diff.obj_type :=
  Diff.ObjType "Application" (Some "/sse/config/v1/applications?").

Definition ApplicationFilter : Diff.obj_type :=
  Diff.ObjType "ApplicationFilter" (Some "/sse/config/v1/application-filters?").

Definition ApplicationGroup : Diff.obj_type :=
  Diff.ObjType "ApplicationGroup" (Some "/sse/config/v1/application-groups?").

Definition ApplicationOverrideRule : Diff.obj_type :=
  Diff.ObjType "ApplicationOverrideRule" (Some "/sse/config/v1/app-override-rules?").

Definition AutoTagAction : Diff.obj_type :=
  Diff.ObjType "AutoTagAction" (Some "/sse/config/v1/auto-tag-actions?").

Definition CertificateProfile : Diff.obj_type :=
  Diff.ObjType "CertificateProfile" (Some "/sse/config/v1/certificate-profiles?").

Definition DynamicUserGroup : Diff.obj_type :=
  Diff.ObjType "DynamicUserGroup" (Some "/sse/config/v1/dynamic-user-groups?").

Definition ExternalDynamicList : Diff.obj_type :=
  Diff.ObjType "ExternalDynamicList" (Some "/sse/config/v1/external-dynamic-lists?").

Definition HipObject : Diff.obj_type :=
  Diff.ObjType "HipObject" (Some "/sse/config/v1/hip-objects?").

Definition HipProfile : Diff.obj_type :=
  Diff.ObjType "HipProfile" (Some "/sse/config/v1/hip-profiles?").

Definition Region : Diff.obj_type :=
  Diff.ObjType "Region" (Some "/sse/config/v1/regions?").

Definition Schedule : Diff.obj_type :=
  Diff.ObjType "Schedule" (Some "/sse/config/v1/schedules?").

Definition Tag : Diff.obj_type :=
  Diff.ObjType "Tag" (Some "/sse/config/v1/tags?").

Definition URLCategory : Diff.obj_type :=
  Diff.ObjType "URLCategory" (Some "/sse/config/v1/url-categories?").

Definition URLFilteringCategory : Diff.obj_type :=
  Diff.ObjType "URLFilteringCategory" (Some "/sse/config/v1/url-filtering-categories?").

Definition AntiSpywareProfile : Diff.obj_type :=
  Diff.ObjType "AntiSpywareProfile" (Some "/sse/config/v1/anti-spyware-profiles?").

Definition AntiSpywareSignature : Diff.obj_type :=
  Diff.ObjType "AntiSpywareSignature" (Some "/sse/config/v1/anti-spyware-signature").

Definition DNSSecurityProfile : Diff.obj_type :=
  Diff.ObjType "DNSSecurityProfile" (Some "/sse/config/v1/dns-security-profiles?").

Definition DecryptionExclusion : Diff.obj_type :=
  Diff.ObjType "DecryptionExclusion" (Some "/sse/config/v1/decryption-exclusions?").

Definition DecryptionProfile : Diff.obj_type :=
  Diff.ObjType "DecryptionProfile" (Some "/sse/config/v1/decryption-profiles?").

Definition DecryptionRule : Diff.obj_type :=
  Diff.ObjType "DecryptionRule" (Some "/sse/config/v1/decryption-rules?").

Definition FileBlockingProfile : Diff.obj_type :=
  Diff.ObjType "FileBlockingProfile" (Some "/sse/config/v1/file-blocking-profiles?").

Definition HTTPHeaderProfile : Diff.obj_type :=
  Diff.ObjType "HTTPHeaderProfile" (Some "/sse/config/v1/http-header-profiles?").

Definition ProfileGroup : Diff.obj_type :=
  Diff.ObjType "ProfileGroup" (Some "/sse/config/v1/profile-groups?").

Definition URLAccessProfile : Diff.obj_type :=
  Diff.ObjType "URLAccessProfile" (Some "/sse/config/v1/url-access-profiles?").

Definition VulnerabilityProtectionProfile : Diff.obj_type :=
  Diff.ObjType "VulnerabilityProtectionProfile" (Some "/sse/config/v1/vulnerability-protection-profiles?").

Definition VulnerabilityProtectionSignature : Diff.obj_type :=
  Diff.ObjType "VulnerabilityProtectionSignature" (Some "/sse/config/v1/vulnerability-protection-signatures?").

Definition WildFireAntivirusProfile : Diff.obj_type :=
  Diff.ObjType "WildFireAntivirusProfile" (Some "/sse/config/v1/wildfire-anti-virus-profiles?").

(** The classes that model an object of the service. *)
Definition classes : list Diff.obj_type :=
  [SecurityRule; Address; AddressGroup; Service; ServiceGroup; Application;
   ApplicationFilter; ApplicationGroup; ApplicationOverrideRule; AutoTagAction;
   CertificateProfile; DynamicUserGroup; ExternalDynamicList; HipObject;
   HipProfile; Region; Schedule; Tag; URLCategory; URLFilteringCategory;
   AntiSpywareProfile; AntiSpywareSignature; DNSSecurityProfile;
   DecryptionExclusion; DecryptionProfile; DecryptionRule; FileBlockingProfile;
   HTTPHeaderProfile; ProfileGroup; URLAccessProfile;
   VulnerabilityProtectionProfile; VulnerabilityProtectionSignature;
   WildFireAntivirusProfile].

End Obj.


(** ** Reading the futures of a batch *)

(** The responses of the calls that returned, in order. *)
Fixpoint returned (futures : list (exn + record)) : list record :=
  match futures with
  | [] => []
  | inr response :: rest => response :: returned rest
  | inl _ :: rest => returned rest
  end.

(** The log line [create_objects] writes for a call. *)
Definition line_of (future : exn + record) : event :=
  match future with
  | inr response => EvResponse response
  | inl e => EvPostError e
  end.


(** ** A remote that also creates and updates *)

(** A remote for the creation and update scenarios: [post] to a collection
    stores the record unless one of its name is there, and answers by the
    status and message contract; a move is that of [OrderedRemote]; [put]
    replaces the record whose id ends the address. *)
Module StoringRemote.

Definition named (name : value) (o : record) : bool :=
  match dict_get "name" o with
  | Some n => py_eq n name
  | None => false
  end.

Definition create (data : record) (objects : list record)
  : (exn + record) * list record :=
  match dict_get "name" data with
  | Some name =>
      if existsb (named name) objects then
        (inr [("status", VStr "success");
              ("message", VStr "Object already exists"); ("name", name)],
         objects)
      else
        (inr [("status", VStr "success");
              ("message", VStr "Object processed"); ("name", name)],
         objects ++ [data])
  | None =>
      (inr [("status", VStr "error creating object");
            ("message", VStr "name is required"); ("name", VNone)],
       objects)
  end.

Definition post (u : url) (data : record) (objects : list record)
  : (exn + record) * list record :=
  match u with
  | Url _ => create data objects
  | MoveUrl _ _ => OrderedRemote.move u data objects
  end.

Definition handler : gateway (list record) :=
  Gateway (fun _ _ _ _ objects => (inr objects, objects)) post.

(** The text after the last [/] of an address. *)
Fixpoint last_segment (s : string) : string :=
  match s with
  | EmptyString => EmptyString
  | String c rest =>
      if has_char "/" rest then last_segment rest
      else if Ascii.eqb c "/" then rest else s
  end.

Fixpoint replace_by_id (id : value) (data : record) (objects : list record)
  : list record :=
  match objects with
  | [] => []
  | o :: rest =>
      if OrderedRemote.has_id id o then data :: rest
      else o :: replace_by_id id data rest
  end.

Definition put (endpoint : string) (data : record) (objects : list record)
  : (exn + record) * list record :=
  let id := VStr (last_segment endpoint) in
  if existsb (OrderedRemote.has_id id) objects then
    (inr [("status", VStr "success")], replace_by_id id data objects)
  else
    (inr [("status", VStr "error"); ("message", VStr "Object not found")],
     objects).

End StoringRemote.


(** ** Reading the answers to a batch of moves *)

(** The status of a response is not "success". *)
Definition not_success (response : record) : bool :=
  negb (py_eq (Contract.field "status" response) (VStr "success")).

(** The payload of a move before [destination_rule_id]. *)
Definition move_payload (position : string) (destination_rule_id : value)
  : record :=
  [("destination", VStr "before"); ("rulebase", VStr position);
   ("destination_rule", destination_rule_id)].


(** A remote whose listing is out of service, with the creation of
    [StoringRemote]. *)
Definition listing_down : gateway (list record) :=
  Gateway (fun _ _ _ _ objects => (inl (GatewayError "down"), objects))
    StoringRemote.post.


(** ** SCMObjectManager: objects *)

(** The object half of [SCMObjectManager]: [get_current_objects],
    [post_new_entries], [update_existing_entries] and [process_objects].  Of
    their log lines only the one [get_current_objects] shares with
    [create_objects] is an event; the reads the other lines perform
    ([entry['name']], [result['message']]) are kept, since they can raise. *)
Module SCMObjects.

(** Two classes are the same object. *)
Definition same_type (a b : Diff.obj_type) : bool :=
  String.eqb (Diff.type_name a) (Diff.type_name b)
  && match Diff.type_endpoint a, Diff.type_endpoint b with
     | Some x, Some y => String.eqb x y
     | None, None => true
     | _, _ => false
     end.

(** [results[obj_type] = data] *)
Fixpoint results_set (obj_type : Diff.obj_type) (data : list record)
  (results : list (Diff.obj_type * list record))
  : list (Diff.obj_type * list record) :=
  match results with
  | [] => [(obj_type, data)]
  | (t, d) :: rest =>
      if same_type t obj_type then (t, data) :: rest
      else (t, d) :: results_set obj_type data rest
  end.

(** [getattr(self.obj, entry_type_name)], the module given by its classes *)
Fixpoint getattr (obj : list Diff.obj_type) (entry_type_name : string)
  : result Diff.obj_type :=
  match obj with
  | [] => Raise AttributeError
  | t :: rest =>
      if String.eqb (Diff.type_name t) entry_type_name then Ok t
      else getattr rest entry_type_name
  end.

(** ['/' + object_id]: the id has to be a string. *)
Definition str_operand (v : value) : result string :=
  match v with
  | VStr s => Ok s
  | _ => Raise TypeError
  end.

(** The entries the classifier queues are dicts (it has read their name):
    this is how they are handed to the creation calls. *)
Fixpoint dicts_of (entries : list value) : list record :=
  match entries with
  | [] => []
  | VDict d :: rest => d :: dicts_of rest
  | _ :: rest => dicts_of rest
  end.

Section WithGateway.

Context {R : Type}.
Variable api_handler : gateway R.

(** [api_handler.put(endpoint, data)], which may raise. *)
Variable api_put : string -> record -> R -> (exn + record) * R.

(** [self.folder_scope], [self.obj_types] and [self.obj] *)
Variable folder_scope : string.
Variable obj_types : list Diff.obj_type.
Variable obj : list Diff.obj_type.

Abbreviation eff := (eff R).

Definition put (endpoint : string) (data : record) : eff record :=
  fun w =>
    let '(r, s) := api_put endpoint data (remote w) in
    (of_call r, World s (log w) (max_workers w)).

(** One submitted [fetch_objects]: the call runs, its outcome is kept in the
    future. *)
Definition submit_fetch (obj_type : Diff.obj_type) (limit : string)
  : eff (exn + list record) :=
  fun w =>
    match SCMObjectManager.fetch_objects api_handler folder_scope obj_type
            limit "" w with
    | (Ok data, w') => (Ok (inr data), w')
    | (Raise e, w') => (Ok (inl e), w')
    | (OutOfFuel, w') => (OutOfFuel, w')
    end.

(** [{executor.submit(self.fetch_objects, obj_type, limit): obj_type ...}] *)
Fixpoint submit_fetches (types : list Diff.obj_type) (limit : string)
  : eff (list (Diff.obj_type * (exn + list record))) :=
  match types with
  | [] => ret []
  | obj_type :: rest =>
      f <~ submit_fetch obj_type limit ;;
      fs <~ submit_fetches rest limit ;;
      ret ((obj_type, f) :: fs)
  end.

(** The [for future in as_completed(future_to_obj_type)] loop. *)
Fixpoint keep_fetched (futures : list (Diff.obj_type * (exn + list record)))
  (results : list (Diff.obj_type * list record))
  : list (Diff.obj_type * list record) :=
  match futures with
  | [] => results
  | (obj_type, inr data) :: rest =>
      keep_fetched rest (results_set obj_type data results)
  | (_, inl _) :: rest => keep_fetched rest results
  end.

(** [get_current_objects] without extra keyword arguments. *)
Definition get_current_objects (types : list Diff.obj_type)
  (max_workers : nat) (limit : string)
  : eff (list (Diff.obj_type * list record)) :=
  _ <~ logger (EvWorkers max_workers) ;;
  futures <~ submit_fetches types limit ;;
  ret (keep_fetched futures []).

(** The [for obj_type in self.obj_types] loop of [post_new_entries]. *)
Fixpoint post_new_types (types : list Diff.obj_type)
  (new_entries : list (string * list record)) (scope : string) : eff unit :=
  match types with
  | [] => ret tt
  | obj_type :: rest =>
      let entry_type_name := Diff.type_name obj_type in
      _ <~ match dict_get entry_type_name new_entries with
           | Some ((_ :: _) as entries) =>
               entry_class <~ lift (getattr obj entry_type_name) ;;
               _ <~ Processor.post_entries api_handler scope entries
                      entry_class "" ;;
               ret tt
           | Some [] => ret tt
           | None => ret tt
           end ;;
      post_new_types rest new_entries scope
  end.

Definition post_new_entries (new_entries : list (string * list record))
  (scope device_group_name : string) : eff unit :=
  post_new_types obj_types new_entries scope.

(** The [for entry in entries] loop of [update_existing_entries]. *)
Fixpoint update_entries (entry_class : Diff.obj_type) (entries : list value)
  : eff unit :=
  match entries with
  | [] => ret tt
  | entry :: rest =>
      object_id <~ lift (py_get entry "id") ;;
      if negb (py_truthy object_id) then
        _ <~ lift (subscript entry "name") ;;
        update_entries entry_class rest
      else
        e <~ lift (Diff.get_endpoint entry_class) ;;
        id <~ lift (str_operand object_id) ;;
        let endpoint := (str_replace "?" "" e ++ "/" ++ id)%string in
        _ <~ lift (subscript entry "name") ;;
        match entry with
        | VDict data =>
            r <~ put endpoint data ;;
            status <~ lift (item r "status") ;;
            _ <~ (if py_eq status (VStr "success") then
                    _ <~ lift (subscript entry "name") ;; ret tt
                  else
                    _ <~ lift (subscript entry "name") ;;
                    _ <~ lift (item r "message") ;; ret tt) ;;
            update_entries entry_class rest
        | _ => raise AttributeError
        end
  end.

(** The [for obj_type in self.obj_types] loop of
    [update_existing_entries]. *)
Fixpoint update_types (types : list Diff.obj_type)
  (updated_entries : Diff.entries) : eff unit :=
  match types with
  | [] => ret tt
  | obj_type :: rest =>
      let entry_type_name := Diff.type_name obj_type in
      _ <~ match dict_get entry_type_name updated_entries with
           | Some ((_ :: _) as entries) =>
               entry_class <~ lift (getattr obj entry_type_name) ;;
               update_entries entry_class entries
           | Some [] => ret tt
           | None => ret tt
           end ;;
      update_types rest updated_entries
  end.

Definition update_existing_entries (updated_entries : Diff.entries)
  (scope device_group_name : string) : eff unit :=
  update_types obj_types updated_entries.

Definition process_objects (parsed_data : list (string * list value))
  (scope device_group_name : string) (max_workers : nat) (limit : string)
  : eff unit :=
  current_objects <~ get_current_objects obj_types max_workers limit ;;
  '(new_entries, updated_entries) <~
    lift (Diff.get_new_and_updated_entries parsed_data
            (map (fun '(t, data) => (t, map VDict data)) current_objects)) ;;
  _ <~ (if existsb (fun kv => py_truthy (VList (snd kv))) new_entries then
          post_new_entries
            (map (fun '(k, entries) => (k, dicts_of entries)) new_entries)
            scope device_group_name
        else ret tt) ;;
  update_existing_entries updated_entries scope device_group_name.

End WithGateway.

End SCMObjects.


(** ** Shape of an entries dict *)

(** The shape [setdefault(...).append(...)] keeps: distinct keys, no empty
    list, keys among [names]. *)
Definition tidy (names : list string) (d : Diff.entries) : Prop :=
  NoDup (map fst d)
  /\ Forall (fun kv => snd kv <> []) d
  /\ (forall k, In k (map fst d) -> In k names).

(** ** The update calls of a batch *)

(** The [put] of an entry: none without an id that holds. *)
Definition update_call (entry_class : Diff.obj_type) (entry : value)
  : list (string * record) :=
  match entry, Diff.type_endpoint entry_class with
  | VDict data, Some e =>
      match existing data "id" with
      | VStr id =>
          if py_truthy (VStr id)
          then [((str_replace "?" "" e ++ "/" ++ id)%string, data)]
          else []
      | _ => []
      end
  | _, _ => []
  end.

(** The calls of [update_existing_entries], type by type in the order of
    the object types, entry by entry. *)
Fixpoint planned_puts (types : list Diff.obj_type)
  (updated_entries : Diff.entries) : list (string * record) :=
  match types with
  | [] => []
  | t :: rest =>
      match dict_get (Diff.type_name t) updated_entries with
      | Some entries => flat_map (update_call t) entries
      | None => []
      end ++ planned_puts rest updated_entries
  end.

(** The remote after a sequence of [put] calls. *)
Definition run_puts {R : Type}
  (api_put : string -> record -> R -> (exn + record) * R)
  (calls : list (string * record)) (s : R) : R :=
  fold_left (fun s call => snd (api_put (fst call) (snd call) s)) calls s.

(** An answer of [put] that [update_existing_entries] can read: a status,
    and a message when the status is not "success". *)
Definition readable (r : record) : Prop :=
  exists status,
    dict_get "status" r = Some status
    /\ (py_eq status (VStr "success") = true \/ dict_has "message" r = true).

(** An entry queued for update: a dict with a name, whose id is a string or
    does not hold. *)
Definition updatable (entry : value) : Prop :=
  exists d n,
    entry = VDict d /\ dict_get "name" d = Some n
    /\ (py_truthy (existing d "id") = false
        \/ exists id, existing d "id" = VStr id).

Definition updated_addresses : Diff.entries :=
  [("Address",
    [VDict [("name", VStr "db"); ("ip_netmask", VStr "10.0.0.2/32");
            ("id", VStr "8")];
     VDict [("name", VStr "lost"); ("id", VNone)];
     VDict [("name", VStr "web"); ("ip_netmask", VStr "10.0.0.4/32");
            ("id", VStr "7")]]);
   ("Tag", [VDict [("name", VStr "dmz"); ("id", VStr "1")]])].


(** Desired addresses that the remote of [current_addresses] already holds
    as they are. *)
Definition settled_addresses : list value :=
  [VDict [("name", VStr "db"); ("ip_netmask", VStr "10.0.0.9/32")];
   VDict [("name", VStr "web"); ("ip_netmask", VStr "10.0.0.1/32")]].


(** Desired rules in the order of [rules_ABC]. *)
Definition desired_ABC : list record :=
  [[("name", VStr "A")]; [("name", VStr "B")]; [("name", VStr "C")]].


(** * Properties *)

(** ** Structural difference *)

(** C4 (as the code has it).  An empty list against an absent field is no
    difference and a non-empty list against an absent field is one, but an
    empty mapping against an absent field is reported as a difference, in
    both directions: [deep_compare] tests [== []] only. *)
Theorem needs_update_empty_mapping_differs (n : string) :
  Diff.needs_update [("name", VStr n); ("a", VList [])]
    (VDict [("name", VStr n)]) = Ok false
  /\ Diff.needs_update [("name", VStr n); ("a", VList [VInt 1])]
       (VDict [("name", VStr n)]) = Ok true
  /\ Diff.needs_update [("name", VStr n); ("a", VDict [])]
       (VDict [("name", VStr n)]) = Ok true
  /\ Diff.deep_compare (VList []) VNone = false
  /\ Diff.deep_compare VNone (VList []) = false
  /\ Diff.deep_compare (VDict []) VNone = true
  /\ Diff.deep_compare VNone (VDict []) = true.
Proof.
  repeat split; reflexivity.
Qed.

(** ** Aggregation of the creation results *)

Lemma contract_fields (r : record) (status message name : value) :
  dict_get "status" r = Some status ->
  dict_get "message" r = Some message ->
  dict_get "name" r = Some name ->
  Contract.created r =
    py_eq status (VStr "success") && py_eq message (VStr "Object processed")
  /\ Contract.already_existed r =
       py_eq status (VStr "success")
       && negb (py_eq message (VStr "Object processed"))
  /\ Contract.failed r =
       negb (py_eq status (VStr "success"))
       && py_eq status (VStr "error creating object")
  /\ Contract.field "name" r = name.
Proof.
  intros Hs Hm Hn.
  unfold Contract.created, Contract.already_existed, Contract.failed,
    Contract.succeeded, Contract.processed, Contract.field.
  now rewrite Hs, Hm, Hn.
Qed.

Lemma analyze_loop_counts (results : list record) :
  forall (c e f : nat) (errs : list value),
    Forall Contract.gateway_result results ->
    Processor.analyze_loop results c e f errs =
      (c + length (filter Contract.created results),
       e + length (filter Contract.already_existed results),
       f + length (filter Contract.failed results),
       errs ++ map (Contract.field "name") (filter Contract.failed results)).
Proof.
  induction results as [|r rest IH]; intros c e f errs Hall.
  - cbn. now rewrite !Nat.add_0_r, app_nil_r.
  - inversion Hall as [|? ? [Hs [Hm Hn]] Hrest]; subst.
    unfold dict_has in Hs, Hm, Hn.
    cbn [Processor.analyze_loop filter].
    destruct (dict_get "status" r) as [status|] eqn:Es; [|discriminate].
    destruct (dict_get "message" r) as [message|] eqn:Em; [|discriminate].
    destruct (dict_get "name" r) as [name|] eqn:En; [|discriminate].
    destruct (contract_fields r status message name Es Em En)
      as (-> & -> & -> & Hname).
    destruct (py_eq status (VStr "success")).
    + destruct (py_eq message (VStr "Object processed"));
        cbn [andb negb length map]; rewrite IH by assumption;
        rewrite ?Nat.add_succ_r; reflexivity.
    + destruct (py_eq status (VStr "error creating object"));
        cbn [andb negb length map]; rewrite IH by assumption.
      * rewrite Hname, <- app_assoc, ?Nat.add_succ_r. reflexivity.
      * reflexivity.
Qed.

(** C5.  On results that carry the three fields of the gateway contract,
    [analyze_results] counts as created those with status "success" and
    message "Object processed", as already existing those with status
    "success" and another message, as failed those with the error status
    "error creating object", whose names it lists in order; these four
    aggregates are what it returns. *)
Theorem analyze_results_contract (results : list record) :
  Forall Contract.gateway_result results ->
  Processor.analyze_results results =
    (length (filter Contract.created results),
     length (filter Contract.already_existed results),
     length (filter Contract.failed results),
     map (Contract.field "name") (filter Contract.failed results)).
Proof.
  intros Hall. unfold Processor.analyze_results.
  now rewrite analyze_loop_counts.
Qed.

Lemma analyze_results_contract_witness :
  Forall Contract.gateway_result sample_results
  /\ Processor.analyze_results sample_results = (1, 1, 1, [VStr "r3"]).
Proof.
  assert (H : Forall Contract.gateway_result sample_results).
  { repeat constructor. }
  split; [exact H|].
  rewrite (analyze_results_contract sample_results H). reflexivity.
Defined.

(** ** Halting lemmas *)

Lemma halts_Ok {A : Type} (a : A) : halts (Ok a).
Proof. discriminate. Qed.

Lemma halts_Raise {A : Type} (e : exn) : halts (@Raise A e).
Proof. discriminate. Qed.

Lemma halts_bind {A B : Type} (m : result A) (k : A -> result B) :
  halts m -> (forall a, halts (k a)) -> halts (bind m k).
Proof.
  unfold halts. intros Hm Hk. destruct m as [a| |]; cbn; auto. discriminate.
Qed.

Lemma halts_if {A : Type} (b : bool) (m1 m2 : result A) :
  halts m1 -> halts m2 -> halts (if b then m1 else m2).
Proof. now destruct b. Qed.

Lemma halts_of_call {A : Type} (c : exn + A) : halts (of_call c).
Proof. destruct c; discriminate. Qed.

Lemma halts_subscript (v : value) (k : string) : halts (subscript v k).
Proof.
  unfold subscript. destruct v; try discriminate.
  destruct (dict_get k d); discriminate.
Qed.

Lemma halts_item (r : record) (k : string) : halts (item r k).
Proof. apply halts_subscript. Qed.

Lemma halts_py_get (v : value) (k : string) : halts (py_get v k).
Proof.
  unfold py_get. destruct v; try discriminate.
  destruct (dict_get k d); discriminate.
Qed.

Lemma halts_hashed (v : value) : halts (hashed v).
Proof. unfold hashed. destruct (hashable v); discriminate. Qed.

Lemma halts_get_endpoint (t : Diff.obj_type) : halts (Diff.get_endpoint t).
Proof.
  unfold Diff.get_endpoint. destruct (Diff.type_endpoint t); discriminate.
Qed.

Create HintDb halting.
#[local] Hint Resolve halts_Ok halts_Raise halts_of_call halts_subscript
  halts_item halts_py_get halts_hashed halts_get_endpoint : halting.
#[local] Hint Extern 2 (halts (bind _ _)) =>
  apply halts_bind; [|intro] : halting.
#[local] Hint Extern 2 (halts (if _ then _ else _)) => apply halts_if : halting.

Lemma halts_index (x : value) (l : list value) : halts (index x l).
Proof.
  induction l as [|y rest IH]; cbn [index]; auto with halting.
Qed.

Lemma halts_vdict_item (d : Processor.vdict) (k : value) :
  halts (Processor.vdict_item d k).
Proof.
  unfold Processor.vdict_item. apply halts_bind; [auto with halting|].
  intro a. destruct (Processor.vdict_get a d); auto with halting.
Qed.

Lemma halts_scoped (folder_scope : string) (rules : list record) :
  halts (Processor.scoped folder_scope rules).
Proof.
  induction rules as [|r rest IH]; cbn [Processor.scoped]; auto with halting.
Qed.

Lemma halts_names_but_default (rules : list record) :
  halts (Processor.names_but_default rules).
Proof.
  induction rules as [|r rest IH]; cbn [Processor.names_but_default];
    auto 6 with halting.
Qed.

Lemma halts_names_of (rules : list record) : halts (Processor.names_of rules).
Proof.
  induction rules as [|r rest IH]; cbn [Processor.names_of]; auto with halting.
Qed.

Lemma halts_rule_ids (rules : list record) :
  forall acc, halts (Processor.rule_ids rules acc).
Proof.
  induction rules as [|r rest IH]; intro acc; cbn [Processor.rule_ids];
    auto 6 with halting.
Qed.

Lemma halts_desired_present (ids : Processor.vdict) (rules : list record) :
  halts (Processor.desired_present ids rules).
Proof.
  induction rules as [|r rest IH]; cbn [Processor.desired_present];
    auto with halting.
  apply halts_bind; [auto with halting|]. intro k.
  apply halts_bind; [auto with halting|]. intro k'.
  destruct (Processor.vdict_get k' ids); auto with halting.
Qed.

#[local] Hint Resolve halts_index halts_vdict_item halts_scoped
  halts_names_but_default halts_names_of halts_rule_ids
  halts_desired_present : halting.

Section EngineFacts.

Context {R : Type}.
Variable api_handler : gateway R.

Lemma ehalts_ret {A : Type} (a : A) : ehalts (@ret R A a).
Proof. intro w. discriminate. Qed.

Lemma ehalts_raise {A : Type} (e : exn) : ehalts (@raise R A e).
Proof. intro w. discriminate. Qed.

Lemma ehalts_lift {A : Type} (m : result A) : halts m -> ehalts (@lift R A m).
Proof. intros H w. exact H. Qed.

Lemma ehalts_bind {A B : Type} (m : eff R A) (k : A -> eff R B) :
  ehalts m -> (forall a, ehalts (k a)) -> ehalts (ebind m k).
Proof.
  intros Hm Hk w. unfold ebind. specialize (Hm w).
  destruct (m w) as [[a| |] w']; cbn in *; try discriminate.
  - apply Hk.
  - congruence.
Qed.

Lemma ehalts_if {A : Type} (b : bool) (m1 m2 : eff R A) :
  ehalts m1 -> ehalts m2 -> ehalts (if b then m1 else m2).
Proof. now destruct b. Qed.

Lemma ehalts_logger (ev : event) : ehalts (@logger R ev).
Proof. intro w. discriminate. Qed.

Lemma ehalts_workers : ehalts (@workers R).
Proof. intro w. discriminate. Qed.

Lemma ehalts_set_max_workers (n : nat) : ehalts (@set_max_workers R n).
Proof. intro w. discriminate. Qed.

Lemma ehalts_get (endpoint : option string) (folder limit position : string) :
  ehalts (get api_handler endpoint folder limit position).
Proof.
  intro w. unfold get.
  destruct (api_get api_handler endpoint folder limit position (remote w))
    as [c s].
  apply halts_of_call.
Qed.

Lemma ehalts_submit_post (u : url) (data : record) :
  ehalts (submit_post api_handler u data).
Proof.
  intro w. unfold submit_post.
  destruct (api_post api_handler u data (remote w)). discriminate.
Qed.

(** Inversion of a bind that returned. *)
Lemma ebind_Ok {A B : Type} (m : eff R A) (k : A -> eff R B)
  (w w' : world R) (b : B) :
  ebind m k w = (Ok b, w') ->
  exists a w1, m w = (Ok a, w1) /\ k a w1 = (Ok b, w').
Proof.
  unfold ebind. destruct (m w) as [[a| |] w1]; intro H; try discriminate.
  now exists a, w1.
Qed.

End EngineFacts.

#[local] Hint Resolve ehalts_ret ehalts_raise ehalts_logger ehalts_workers
  ehalts_set_max_workers ehalts_get ehalts_submit_post : halting.
#[local] Hint Extern 2 (ehalts (lift _)) => apply ehalts_lift : halting.
#[local] Hint Extern 2 (ehalts (ebind _ _)) =>
  apply ehalts_bind; [|intro] : halting.
#[local] Hint Extern 2 (ehalts (if _ then _ else _)) =>
  apply ehalts_if : halting.

(** ** The reordering loop *)

Section ReorderFacts.

Context {R : Type}.
Variable api_handler : gateway R.

Lemma ehalts_submit_all (calls : list (url * record)) :
  ehalts (Processor.submit_all api_handler calls).
Proof.
  induction calls as [|[u data] rest IH]; cbn [Processor.submit_all];
    auto with halting.
Qed.

Lemma ehalts_gather (futures : list (exn + record)) :
  forall results, ehalts (@Processor.gather R futures results).
Proof.
  induction futures as [|[e|response] rest IH]; intro results;
    cbn [Processor.gather]; auto with halting.
Qed.

Lemma ehalts_check_moves (futures : list (exn + record)) :
  ehalts (@Processor.check_moves R futures).
Proof.
  induction futures as [|f rest IH]; cbn [Processor.check_moves];
    auto 7 with halting.
Qed.

Lemma ehalts_plan_moves (endpoint position : string) (ids : Processor.vdict)
  (current_order desired_order : list value) :
  ehalts (@Processor.plan_moves R endpoint position ids current_order
            desired_order).
Proof.
  induction desired_order as [|a rest IH]; [apply ehalts_ret|].
  destruct rest as [|b rest']; [apply ehalts_ret|].
  cbn [Processor.plan_moves]. auto 9 with halting.
Qed.

Lemma plan_moves_step (endpoint position : string) (ids : Processor.vdict)
  (current_order : list value) (a b : value) (rest : list value) :
  @Processor.plan_moves R endpoint position ids current_order (a :: b :: rest)
  = (i <~ lift (index a current_order) ;;
     j <~ lift (index b current_order) ;;
     if Nat.ltb j i then
       rule_id <~ lift (Processor.vdict_item ids a) ;;
       destination_rule_id <~ lift (Processor.vdict_item ids b) ;;
       let move_data :=
         [("destination", VStr "before"); ("rulebase", VStr position);
          ("destination_rule", destination_rule_id)] in
       _ <~ logger (EvPreparedMove a rule_id b destination_rule_id) ;;
       moves <~ Processor.plan_moves endpoint position ids current_order
                  (b :: rest) ;;
       ret ((MoveUrl endpoint rule_id, move_data) :: moves)
     else
       Processor.plan_moves endpoint position ids current_order (b :: rest)).
Proof. reflexivity. Qed.

(** The planning pass computes and logs: the remote and the pool size stay
    as they are. *)
Lemma plan_moves_remote (endpoint position : string) (ids : Processor.vdict)
  (current_order desired_order : list value) (w : world R) :
  remote (snd (Processor.plan_moves endpoint position ids current_order
                 desired_order w)) = remote w.
Proof.
  revert w.
  induction desired_order as [|a rest IH]; intro w; [reflexivity|].
  destruct rest as [|b rest']; [reflexivity|].
  rewrite plan_moves_step. unfold ebind, lift, logger.
  destruct (index a current_order); try reflexivity.
  destruct (index b current_order); try reflexivity.
  destruct (Nat.ltb _ _); [|apply IH].
  destruct (Processor.vdict_item ids a); try reflexivity.
  destruct (Processor.vdict_item ids b); try reflexivity.
  match goal with
  | |- context [Processor.plan_moves _ _ _ _ _ ?w1] =>
      specialize (IH w1);
      destruct (Processor.plan_moves endpoint position ids current_order
                  (b :: rest') w1) as [[m| |] w2]
  end; exact IH.
Qed.

Variables (obj_type : Diff.obj_type)
  (endpoint folder_scope limit position : string)
  (current_rule_ids : Processor.vdict) (desired_order : list value).

Let loop (fuel : nat) :=
  Processor.reorder_loop api_handler fuel obj_type endpoint folder_scope
    limit position current_rule_ids desired_order.

Lemma reorder_loop_halts (fuel : nat) :
  forall (attempts : nat) (current_order : list value),
    Processor.max_attempts <= fuel + attempts ->
    ehalts (loop fuel attempts current_order).
Proof.
  unfold loop.
  induction fuel as [|fuel IH]; intros attempts current_order Hfuel.
  - cbn [Processor.reorder_loop].
    replace (Nat.ltb attempts Processor.max_attempts) with false
      by (symmetry; apply Nat.ltb_ge; lia).
    rewrite andb_false_r. apply ehalts_ret.
  - cbn [Processor.reorder_loop].
    destruct (negb (list_eq current_order desired_order)
              && Nat.ltb attempts Processor.max_attempts);
      [|apply ehalts_ret].
    apply ehalts_bind; [apply ehalts_plan_moves|]. intros [|m moves].
    + apply ehalts_ret.
    + repeat (apply ehalts_bind;
              [solve [auto using ehalts_submit_all, ehalts_check_moves
                        with halting]|intro]).
      apply IH. lia.
Qed.

Lemma reorder_loop_attempts (fuel : nat) :
  forall (attempts attempts' : nat) (current_order current_order' : list value)
    (w w' : world R),
    loop fuel attempts current_order w = (Ok (attempts', current_order'), w') ->
    attempts <= Processor.max_attempts ->
    attempts <= attempts' <= Processor.max_attempts.
Proof.
  unfold loop.
  induction fuel as [|fuel IH];
    intros attempts attempts' current_order current_order' w w' Hrun Hle;
    cbn [Processor.reorder_loop] in Hrun;
    destruct (negb (list_eq current_order desired_order)) ; cbn [andb] in Hrun;
    try (injection Hrun as <- _ _; lia);
    destruct (Nat.ltb attempts Processor.max_attempts) eqn:Hlt;
    try (injection Hrun as <- _ _; lia);
    try discriminate.
  apply Nat.ltb_lt in Hlt.
  apply ebind_Ok in Hrun as (moves & w1 & _ & Hrun).
  destruct moves as [|m moves].
  - injection Hrun as <- _ _. lia.
  - repeat (apply ebind_Ok in Hrun as (? & ? & _ & Hrun)).
    apply IH in Hrun; lia.
Qed.

Lemma reorder_loop_break (fuel attempts : nat) (current_order : list value)
  (w w1 : world R) :
  list_eq current_order desired_order = false ->
  attempts < Processor.max_attempts ->
  Processor.plan_moves endpoint position current_rule_ids current_order
    desired_order w = (Ok [], w1) ->
  loop (S fuel) attempts current_order w = (Ok (S attempts, current_order), w1)
  /\ remote w1 = remote w.
Proof.
  intros Hne Hlt Hplan. unfold loop. cbn [Processor.reorder_loop].
  rewrite Hne. apply Nat.ltb_lt in Hlt. rewrite Hlt. cbn [negb andb].
  unfold ebind. rewrite Hplan. split; [reflexivity|].
  pose proof (plan_moves_remote endpoint position current_rule_ids
                current_order desired_order w) as Hr.
  now rewrite Hplan in Hr.
Qed.

End ReorderFacts.

Section ReorderRules.

Context {R : Type}.
Variable api_handler : gateway R.

Lemma reorder_rules_run_halts (fuel : nat) (obj_type : Diff.obj_type)
  (endpoint folder_scope : string) (original_rules current_rules : list record)
  (limit position : string) :
  Processor.max_attempts <= fuel ->
  ehalts (Processor.reorder_rules_run api_handler fuel obj_type endpoint
            folder_scope original_rules current_rules limit position).
Proof.
  intro Hfuel. unfold Processor.reorder_rules_run.
  repeat (apply ehalts_bind; [solve [auto with halting]|intro]).
  apply reorder_loop_halts. lia.
Qed.

Lemma reorder_rules_halts (fuel : nat) (obj_type : Diff.obj_type)
  (endpoint folder_scope : string) (original_rules current_rules : list record)
  (limit position : string) :
  Processor.max_attempts <= fuel ->
  ehalts (Processor.reorder_rules api_handler fuel obj_type endpoint
            folder_scope original_rules current_rules limit position).
Proof.
  intro Hfuel. unfold Processor.reorder_rules.
  apply ehalts_bind; [now apply reorder_rules_run_halts|].
  intro. apply ehalts_ret.
Qed.

Lemma reorder_rules_None (fuel : nat) (obj_type : Diff.obj_type)
  (endpoint folder_scope : string) (original_rules current_rules : list record)
  (limit position : string) (w w' : world R) (v : value) :
  Processor.reorder_rules api_handler fuel obj_type endpoint folder_scope
    original_rules current_rules limit position w = (Ok v, w') ->
  v = VNone.
Proof.
  unfold Processor.reorder_rules. intro H.
  apply ebind_Ok in H as (x & w1 & _ & H). now injection H as <- _.
Qed.

(** C2.  Whatever the rule lists and whatever [get] and [post] answer, the
    loop of [reorder_rules] ends: fuel for 8 passes is never used up, the
    count of attempts it ends with is at most 8, and a pass whose move set
    is empty ends the loop at once, with the order still different from
    the desired one and without a call to the remote. *)
Theorem reorder_rules_terminates (fuel : nat) (obj_type : Diff.obj_type)
  (endpoint folder_scope : string) (original_rules current_rules : list record)
  (limit position : string) (w : world R) :
  Processor.max_attempts <= fuel ->
  fst (Processor.reorder_rules api_handler fuel obj_type endpoint folder_scope
         original_rules current_rules limit position w) <> OutOfFuel
  /\ (forall attempts current_order w',
        Processor.reorder_rules_run api_handler fuel obj_type endpoint
          folder_scope original_rules current_rules limit position w
        = (Ok (attempts, current_order), w') ->
        attempts <= 8)
  /\ (forall current_rule_ids desired_order attempts current_order w0 w1,
        list_eq current_order desired_order = false ->
        attempts < Processor.max_attempts ->
        Processor.plan_moves endpoint position current_rule_ids current_order
          desired_order w0 = (Ok [], w1) ->
        Processor.reorder_loop api_handler fuel obj_type endpoint folder_scope
          limit position current_rule_ids desired_order attempts
          current_order w0
        = (Ok (S attempts, current_order), w1)
        /\ remote w1 = remote w0).
Proof.
  intro Hfuel. split; [|split].
  - now apply reorder_rules_halts.
  - intros attempts current_order w' Hrun.
    unfold Processor.reorder_rules_run in Hrun.
    repeat (apply ebind_Ok in Hrun as (? & ? & _ & Hrun)).
    apply reorder_loop_attempts in Hrun;
      unfold Processor.max_attempts in *; lia.
  - intros ids desired attempts current_order w0 w1 Hne Hlt Hplan.
    destruct fuel as [|fuel']; [unfold Processor.max_attempts in Hfuel; lia|].
    now apply reorder_loop_break.
Qed.

(** C10.  [reorder_rules] returns [None] whenever it returns; so
    [check_and_reorder_rules] is its loop body run once: on a mismatch one
    call of [reorder_rules], after which the flag is set ([not None]) and
    the loop is left, whether or not the call converged or moved a rule.
    With fuel for one pass (and for the 8 attempts of the call) it is never
    cut off. *)
Theorem check_and_reorder_rules_single_call (fuel fuel_in : nat)
  (obj_type : Diff.obj_type) (folder_scope : string)
  (original_rules : list record) (limit position : string) (w : world R) :
  Processor.max_attempts <= fuel_in ->
  (forall endpoint current_rules w0 v w1,
      Processor.reorder_rules api_handler fuel_in obj_type endpoint
        folder_scope original_rules current_rules limit position w0
      = (Ok v, w1) ->
      v = VNone /\ negb (py_truthy v) = true)
  /\ Processor.check_and_reorder_rules api_handler (S fuel) fuel_in obj_type
       folder_scope original_rules limit position w
     = check_single_pass api_handler fuel_in obj_type folder_scope
         original_rules limit position w
  /\ fst (Processor.check_and_reorder_rules api_handler (S fuel) fuel_in
            obj_type folder_scope original_rules limit position w)
     <> OutOfFuel.
Proof.
  intro Hfuel.
  assert (Hpass :
    Processor.check_and_reorder_rules api_handler (S fuel) fuel_in obj_type
      folder_scope original_rules limit position w
    = check_single_pass api_handler fuel_in obj_type folder_scope
        original_rules limit position w).
  { unfold Processor.check_and_reorder_rules, check_single_pass.
    cbn [Processor.check_loop negb]. unfold ebind, lift.
    destruct (Diff.get_endpoint obj_type) as [e| |]; try reflexivity.
    destruct (get api_handler (Some e) folder_scope limit position w)
      as [[all| |] w1]; try reflexivity.
    destruct (Processor.scoped folder_scope all) as [current_rules| |];
      try reflexivity.
    destruct (Processor.names_but_default current_rules)
      as [current_order| |]; try reflexivity.
    destruct (Processor.names_but_default original_rules)
      as [desired_order| |]; try reflexivity.
    destruct (negb (list_eq current_order desired_order)).
    - cbn [logger].
      match goal with
      | |- context [Processor.reorder_rules ?a ?b ?c ?d ?e ?f ?g ?h ?i ?w2] =>
          destruct (Processor.reorder_rules a b c d e f g h i w2)
            as [[v| |] w3] eqn:Hcall
      end; try reflexivity.
      apply reorder_rules_None in Hcall. subst v.
      cbn [py_truthy negb]. destruct fuel; reflexivity.
    - destruct fuel; reflexivity. }
  split; [|split].
  - intros endpoint current_rules w0 v w1 Hcall.
    apply reorder_rules_None in Hcall. now subst v.
  - exact Hpass.
  - rewrite Hpass. clear Hpass. revert w.
    change (ehalts (check_single_pass api_handler fuel_in obj_type
                      folder_scope original_rules limit position)).
    unfold check_single_pass.
    repeat (apply ehalts_bind; [solve [auto with halting]|intro]).
    apply ehalts_bind; [|intro; apply ehalts_logger].
    apply ehalts_if; [|apply ehalts_ret].
    apply ehalts_bind; [apply ehalts_logger|intro].
    apply ehalts_bind; [now apply reorder_rules_halts|intro].
    apply ehalts_ret.
Qed.

End ReorderRules.

(** ** The scenario [A, B, C] to [C, A, B] *)



Lemma reorder_rules_terminates_witness :
  Processor.max_attempts <= 8
  /\ fst (Processor.reorder_rules OrderedRemote.handler 8 SecurityRule
            "/sse/config/v1/security-rules" "Mobile Users" desired_CAB
            rules_ABC "10000" "pre" (start rules_ABC)) <> OutOfFuel.
Proof.
  assert (H : Processor.max_attempts <= 8) by apply le_n.
  split; [exact H|].
  exact (proj1 (reorder_rules_terminates OrderedRemote.handler 8 SecurityRule
                  "/sse/config/v1/security-rules" "Mobile Users" desired_CAB
                  rules_ABC "10000" "pre" (start rules_ABC) H)).
Defined.

Lemma check_and_reorder_rules_single_call_witness :
  Processor.max_attempts <= 8
  /\ Processor.check_and_reorder_rules OrderedRemote.handler 1 8 SecurityRule
       "Mobile Users" desired_CAB "10000" "pre" (start rules_ABC)
     = check_single_pass OrderedRemote.handler 8 SecurityRule "Mobile Users"
         desired_CAB "10000" "pre" (start rules_ABC)
  /\ fst (Processor.check_and_reorder_rules OrderedRemote.handler 1 8
            SecurityRule "Mobile Users" desired_CAB "10000" "pre"
            (start rules_ABC)) <> OutOfFuel.
Proof.
  assert (H : Processor.max_attempts <= 8) by apply le_n.
  split; [exact H|].
  exact (proj2 (check_and_reorder_rules_single_call OrderedRemote.handler 0 8
                  SecurityRule "Mobile Users" desired_CAB "10000" "pre"
                  (start rules_ABC) H)).
Defined.

(** ** Creation and its summary *)

Section PostEntries.

Context {R : Type}.
Variable api_handler : gateway R.





End PostEntries.



(** ** Sentinel entries *)

Lemma py_eq_VStr (v : value) (s : string) :
  py_eq v (VStr s) = true -> v = VStr s.
Proof.
  destruct v; cbn; try discriminate.
  intro H. apply String.eqb_eq in H. now subst.
Qed.

(** C6 (as the code has it).  [is_rule_order_correct] compares the names as
    they are, sentinel included; [reorder_rules] keeps the sentinel in its
    first current order and in its desired order and drops it from the
    re-fetched order only, so that with a sentinel on both sides its second
    pass raises [ValueError]; [check_and_reorder_rules] leaves the sentinel
    out on both sides. *)
Theorem order_comparisons_keep_default :
  RuleProcessor.is_rule_order_correct
    [rule "A" "1" "Mobile Users"; rule "default" "0" "Mobile Users"]
    [[("name", VStr "A")]] = Ok false
  /\ Processor.names_but_default
       [rule "A" "1" "Mobile Users"; rule "default" "0" "Mobile Users"]
     = Processor.names_but_default [[("name", VStr "A")]]
  /\ Processor.names_of rules_AB_default
     = Ok [VStr "A"; VStr "B"; VStr "default"]
  /\ (exists ids,
        Processor.rule_ids rules_AB_default [] = Ok ids
        /\ Processor.desired_present ids desired_BA_default
           = Ok [VStr "B"; VStr "A"; VStr "default"])
  /\ fst (Processor.reorder_rules OrderedRemote.handler 8 SecurityRule
            "/sse/config/v1/security-rules" "Mobile Users" desired_BA_default
            rules_AB_default "10000" "pre" (start rules_AB_default))
     = Raise ValueError
  /\ fst (Processor.check_and_reorder_rules OrderedRemote.handler 1 8
            SecurityRule "Mobile Users" desired_BA_default "10000" "pre"
            (start rules_AB_default))
     = Raise ValueError.
Proof.
  split; [reflexivity|]. split; [reflexivity|]. split; [reflexivity|].
  split; [eexists; split; reflexivity|].
  split; vm_compute; reflexivity.
Qed.

(** ** Scope of the fetched lists *)





(** ** Errors while comparing a field *)

Section NeedsUpdateFacts.

Variable compare : value -> value -> exn + bool.

Lemma compare_fields_spec (new_object current : record) (n : value) :
  dict_get "name" new_object = Some n ->
  forall items,
    Diff.compare_fields compare new_object (VDict current) items
    = Ok (if existsb (field_changed compare current) items
          then Some true else None).
Proof.
  intros Hname. induction items as [|[key value] rest IH]; [reflexivity|].
  cbn [Diff.compare_fields existsb]. unfold field_changed at 1.
  cbn [fst snd].
  destruct (String.eqb key "name"); [exact IH|].
  unfold py_get, existing.
  destruct (dict_get key current) as [x|]; cbn [bind];
    unfold Diff.log_name, item, subscript; rewrite Hname;
    [destruct (compare value x) as [e|[|]]
    |destruct (compare value VNone) as [e|[|]]];
    cbn; try reflexivity; exact IH.
Qed.

Lemma needs_update_with_spec (new_object current : record) (n : value) :
  dict_get "name" new_object = Some n ->
  Diff.needs_update_with compare new_object (VDict current)
  = Ok (match current with
        | [] => false
        | _ :: _ => existsb (field_changed compare current) new_object
        end).
Proof.
  intro Hname. unfold Diff.needs_update_with.
  destruct current as [|c current'].
  - cbn. unfold Diff.log_name, item, subscript. now rewrite Hname.
  - cbn [py_truthy negb].
    rewrite (compare_fields_spec new_object (c :: current') n Hname).
    cbn [bind].
    destruct (existsb (field_changed compare (c :: current')) new_object);
      [reflexivity|].
    unfold Diff.log_name, item, subscript. now rewrite Hname.
Qed.

Lemma dict_get_skip {A : Type} (k key : string) (v : A)
  (pre post : list (string * A)) :
  key <> k ->
  dict_get k (pre ++ (key, v) :: post) = dict_get k (pre ++ post).
Proof.
  intro Hk. induction pre as [|[k' v'] pre IH]; cbn.
  - destruct (String.eqb k key) eqn:E; [|reflexivity].
    apply String.eqb_eq in E. congruence.
  - now rewrite IH.
Qed.

(** C9.  For a record that has its [name] and a current record that is a
    mapping, [needs_update] returns a boolean and raises nothing, whatever
    the comparison of a field does: the answer is whether some field other
    than [name] compares as different, a field whose comparison raises
    counting as no difference; so the answer is the same as with that field
    left out of the record. *)
Theorem needs_update_field_error_skipped (new_object current : record)
  (n : value) :
  dict_get "name" new_object = Some n ->
  Diff.needs_update_with compare new_object (VDict current)
  = Ok (match current with
        | [] => false
        | _ :: _ => existsb (field_changed compare current) new_object
        end)
  /\ (forall pre key value post e,
        new_object = pre ++ (key, value) :: post ->
        key <> "name" ->
        compare value (existing current key) = inl e ->
        Diff.needs_update_with compare new_object (VDict current)
        = Diff.needs_update_with compare (pre ++ post) (VDict current)).
Proof.
  intro Hname. split; [now apply needs_update_with_spec with (n := n)|].
  intros pre key value post e -> Hkey Hraise.
  rewrite (needs_update_with_spec _ current n Hname).
  rewrite dict_get_skip in Hname by assumption.
  rewrite (needs_update_with_spec _ current n Hname).
  destruct current as [|c current']; [reflexivity|].
  rewrite !existsb_app. cbn [existsb].
  unfold field_changed at 2. cbn [fst snd]. rewrite Hraise.
  now rewrite andb_false_r.
Qed.

End NeedsUpdateFacts.

Lemma needs_update_field_error_skipped_witness :
  Diff.needs_update_with fragile_compare
    [("name", VStr "web"); ("tag", VList [VList []]); ("port", VInt 443)]
    (VDict [("name", VStr "web"); ("port", VInt 80)])
  = Ok true
  /\ Diff.needs_update_with fragile_compare
       [("name", VStr "web"); ("tag", VList [VList []]); ("port", VInt 80)]
       (VDict [("name", VStr "web"); ("port", VInt 80)])
     = Diff.needs_update_with fragile_compare
         ([("name", VStr "web")] ++ [("port", VInt 80)])
         (VDict [("name", VStr "web"); ("port", VInt 80)]).
Proof.
  split.
  - exact (proj1 (needs_update_field_error_skipped fragile_compare
                    [("name", VStr "web"); ("tag", VList [VList []]);
                     ("port", VInt 443)]
                    [("name", VStr "web"); ("port", VInt 80)] (VStr "web")
                    eq_refl)).
  - apply (proj2 (needs_update_field_error_skipped fragile_compare
                    [("name", VStr "web"); ("tag", VList [VList []]);
                     ("port", VInt 80)]
                    [("name", VStr "web"); ("port", VInt 80)] (VStr "web")
                    eq_refl)
             [("name", VStr "web")] "tag" (VList [VList []])
             [("port", VInt 80)] TypeError);
      [reflexivity|discriminate|reflexivity].
Defined.

(** ** Classification of the desired records *)

Lemma py_eq_sym_hashable (a b : value) :
  hashable a = true -> hashable b = true -> py_eq a b = py_eq b a.
Proof.
  destruct a as [|x|x|x|x|x], b as [|y|y|y|y|y]; cbn;
    try reflexivity; try discriminate; intros _ _.
  - now destruct x, y.
  - apply Z.eqb_sym.
  - apply Z.eqb_sym.
  - apply Z.eqb_sym.
  - apply String.eqb_sym.
Qed.

Lemma dict_get_set_other {A : Type} (k k' : string) (v : A)
  (d : list (string * A)) :
  k <> k' -> dict_get k (dict_set k' v d) = dict_get k d.
Proof.
  intro Hk. induction d as [|[k0 v0] d IH]; cbn.
  - destruct (String.eqb k k') eqn:E; [|reflexivity].
    apply String.eqb_eq in E. congruence.
  - destruct (String.eqb k' k0) eqn:E0; cbn.
    + apply String.eqb_eq in E0. subst k0.
      destruct (String.eqb k k') eqn:E; [|reflexivity].
      apply String.eqb_eq in E. congruence.
    + now rewrite IH.
Qed.


Section ClassifyFacts.

Import Classify.

Lemma current_names_of_spec (current : list value) :
  Forall is_record current ->
  Diff.current_names_of current = Ok (map vname current).
Proof.
  induction 1 as [|o rest (d & n & -> & Hn & Hh) _ IH]; [reflexivity|].
  cbn [Diff.current_names_of map]. unfold subscript, hashed.
  rewrite Hn. cbn [bind]. rewrite Hh. cbn [bind]. rewrite IH. cbn [bind].
  unfold vname, existing. now rewrite Hn.
Qed.

Lemma mem_names (current : list value) (n : value) :
  mem n (map vname current) = existsb (fun o => py_eq n (vname o)) current.
Proof.
  unfold mem.
  induction current as [|o rest IH]; [reflexivity|].
  cbn. now rewrite IH.
Qed.

Lemma next_named_spec (current : list value) (n : value) :
  Forall is_record current ->
  hashable n = true ->
  existsb (fun o => py_eq n (vname o)) current = true ->
  exists c,
    find (fun o => py_eq (vname o) n) current = Some (VDict c)
    /\ Diff.next_named n current = Ok (VDict c).
Proof.
  intros Hcur Hn.
  induction Hcur as [|o rest (d & m & -> & Hm & Hh) _ IH];
    [discriminate|].
  assert (Hv : vname (VDict d) = m).
  { unfold vname, existing. now rewrite Hm. }
  cbn [existsb find Diff.next_named]. unfold subscript.
  rewrite Hm, !Hv. cbn [bind].
  rewrite (py_eq_sym_hashable n m Hn Hh).
  destruct (py_eq m n).
  - intros _. now exists d.
  - cbn [orb]. exact IH.
Qed.

Lemma classify_entries_spec (current : list value) (T : string)
  (parsed : list value) :
  Forall is_record current ->
  Forall is_record parsed ->
  forall new_entries updated_entries,
    Diff.classify_entries T current (map vname current) parsed new_entries
      updated_entries
    = Ok (fold_left (fun d x => setdefault_append T x d)
            (filter (is_new current) parsed) new_entries,
          fold_left (fun d x => setdefault_append T x d)
            (map (attach current) (filter (is_updated current) parsed))
            updated_entries).
Proof.
  intro Hcur.
  induction 1 as [|p rest (d & n & -> & Hn & Hh) _ IH];
    intros new_entries updated_entries; [reflexivity|].
  cbn [Diff.classify_entries filter]. unfold subscript, hashed.
  rewrite Hn. cbn [bind]. rewrite Hh. cbn [bind].
  unfold is_new at 1, is_updated at 1, named_in.
  rewrite mem_names.
  assert (Hv : vname (VDict d) = n).
  { unfold vname, existing. now rewrite Hn. }
  rewrite Hv.
  destruct (existsb (fun o => py_eq n (vname o)) current) eqn:Ein;
    cbn [negb andb].
  - destruct (next_named_spec current n Hcur Hh Ein) as (c & Hfind & ->).
    cbn [bind py_get].
    assert (Hm : matched current (VDict d) = Some (VDict c)).
    { unfold matched. now rewrite Hv. }
    assert (Ha : attach current (VDict d)
                 = VDict (dict_set "id" (existing c "id") d)).
    { unfold attach. now rewrite Hm. }
    assert (Hid : match dict_get "id" c with
                  | Some x => Ok x
                  | None => Ok VNone
                  end = Ok (existing c "id")).
    { unfold existing. now destruct (dict_get "id" c). }
    rewrite Hid. cbn [bind].
    assert (Hname : dict_get "name" (dict_set "id" (existing c "id") d)
                    = Some n).
    { rewrite dict_get_set_other by discriminate. exact Hn. }
    unfold changed. rewrite Hm, Ha.
    unfold Diff.needs_update.
    rewrite (needs_update_with_spec _ _ c n Hname). cbn [bind].
    match goal with
    | |- context [if ?b then _ else _] => destruct b
    end.
    + cbn [map fold_left]. rewrite Ha. apply IH.
    + apply IH.
  - cbn [fold_left]. apply IH.
Qed.

End ClassifyFacts.





(** * Further properties *)

(** ** Aggregation on arbitrary results *)

Lemma analyze_loop_tally (results : list record) :
  forall (c e f : nat) (errs : list value),
    Processor.analyze_loop results c e f errs =
      (c + length (filter Tally.is_created results),
       e + length (filter Tally.is_existing results),
       f + length (filter Tally.is_failed results),
       errs ++ map (Contract.field "name") (filter Tally.is_failed results)).
Proof.
  induction results as [|r rest IH]; intros c e f errs.
  - cbn. now rewrite !Nat.add_0_r, app_nil_r.
  - cbn [Processor.analyze_loop filter].
    unfold Tally.is_created, Tally.is_existing, Tally.is_failed, Tally.counted,
      dict_has.
    destruct (dict_get "status" r) as [status|] eqn:Es;
      [|cbn [andb]; apply IH].
    destruct (dict_get "message" r) as [message|] eqn:Em;
      [|cbn [andb]; apply IH].
    destruct (dict_get "name" r) as [name|] eqn:En;
      [|cbn [andb]; apply IH].
    destruct (contract_fields r status message name Es Em En)
      as (-> & -> & -> & Hname).
    cbn [andb].
    destruct (py_eq status (VStr "success")).
    + destruct (py_eq message (VStr "Object processed"));
        cbn [andb negb length map]; rewrite IH;
        rewrite ?Nat.add_succ_r; reflexivity.
    + destruct (py_eq status (VStr "error creating object"));
        cbn [andb negb length map]; rewrite IH.
      * rewrite Hname, <- app_assoc, ?Nat.add_succ_r. reflexivity.
      * reflexivity.
Qed.

Lemma analyze_results_tally (results : list record) :
  Processor.analyze_results results =
    (length (filter Tally.is_created results),
     length (filter Tally.is_existing results),
     length (filter Tally.is_failed results),
     map (Contract.field "name") (filter Tally.is_failed results)).
Proof.
  unfold Processor.analyze_results. now rewrite analyze_loop_tally.
Qed.

Lemma tally_exclusive (r : record) :
  (if Tally.is_created r then 1 else 0)
  + (if Tally.is_existing r then 1 else 0)
  + (if Tally.is_failed r then 1 else 0) <= 1.
Proof.
  unfold Tally.is_created, Tally.is_existing, Tally.is_failed,
    Contract.created, Contract.already_existed, Contract.failed.
  destruct (Tally.counted r), (Contract.succeeded r), (Contract.processed r),
    (py_eq (Contract.field "status" r) (VStr "error creating object"));
    cbn; lia.
Qed.

Lemma tally_bound (results : list record) :
  length (filter Tally.is_created results)
  + length (filter Tally.is_existing results)
  + length (filter Tally.is_failed results) <= length results.
Proof.
  induction results as [|r rest IH]; [cbn; lia|].
  cbn [filter length]. pose proof (tally_exclusive r) as Hr.
  destruct (Tally.is_created r), (Tally.is_existing r), (Tally.is_failed r);
    cbn [length] in *; lia.
Qed.

(** X1.  Whatever the results are, the error count of [analyze_results] is
    the length of its error list, and the three counts together never exceed
    the number of results: a result is counted at most once. *)
Theorem analyze_results_counts_bounded (results : list record) :
  let '(created_count, exists_count, error_count, error_objects) :=
    Processor.analyze_results results in
  error_count = length error_objects
  /\ created_count + exists_count + error_count <= length results.
Proof.
  rewrite analyze_results_tally. split.
  - now rewrite length_map.
  - apply tally_bound.
Qed.

Lemma filter_length_perm {A : Type} (p : A -> bool) (l l' : list A) :
  Permutation l l' -> Permutation (filter p l) (filter p l').
Proof.
  induction 1 as [|x l l' _ IH|x y l|l l' l'' _ IH1 _ IH2]; cbn.
  - constructor.
  - destruct (p x); [now constructor|exact IH].
  - destruct (p x), (p y); try reflexivity. apply perm_swap.
  - now transitivity (filter p l').
Qed.

(** X2.  The aggregates do not depend on the order in which the calls
    complete: on a permutation of the results [analyze_results] returns the
    same three counts and a permutation of the same error names; and the
    counts of two batches put together are the sums of their counts. *)
Theorem analyze_results_order_independent (results results' : list record) :
  Permutation results results' ->
  let '(c, e, f, errs) := Processor.analyze_results results in
  let '(c', e', f', errs') := Processor.analyze_results results' in
  c = c' /\ e = e' /\ f = f' /\ Permutation errs errs'
  /\ Processor.analyze_results (results ++ results')
     = (c + c', e + e', f + f', errs ++ errs').
Proof.
  intro Hp. rewrite !analyze_results_tally.
  repeat split.
  - apply Permutation_length. now apply filter_length_perm.
  - apply Permutation_length. now apply filter_length_perm.
  - apply Permutation_length. now apply filter_length_perm.
  - apply Permutation_map. now apply filter_length_perm.
  - now rewrite !filter_app, !length_app, map_app.
Qed.

Lemma analyze_results_order_independent_witness :
  Permutation sample_results (rev sample_results)
  /\ (let '(c, e, f, errs) := Processor.analyze_results sample_results in
      let '(c', e', f', errs') :=
        Processor.analyze_results (rev sample_results) in
      c = c' /\ e = e' /\ f = f' /\ Permutation errs errs'
      /\ Processor.analyze_results (sample_results ++ rev sample_results)
         = (c + c', e + e', f + f', errs ++ errs')).
Proof.
  assert (H : Permutation sample_results (rev sample_results))
    by apply Permutation_rev.
  split; [exact H|].
  exact (analyze_results_order_independent sample_results
           (rev sample_results) H).
Defined.

(** X3.  A result that lacks one of the keys [status], [message], [name], or
    whose status is neither "success" nor "error creating object", changes
    none of the aggregates: [analyze_results] answers as if it were not in
    the list. *)
Theorem analyze_results_skips_foreign (before after : list record) (r : record) :
  Tally.counted r = false
  \/ (py_eq (Contract.field "status" r) (VStr "success") = false
      /\ py_eq (Contract.field "status" r) (VStr "error creating object")
         = false) ->
  Processor.analyze_results (before ++ r :: after)
  = Processor.analyze_results (before ++ after).
Proof.
  intro H. rewrite !analyze_results_tally, !filter_app. cbn [filter].
  assert (Hc : Tally.is_created r = false /\ Tally.is_existing r = false
               /\ Tally.is_failed r = false).
  { unfold Tally.is_created, Tally.is_existing, Tally.is_failed,
      Contract.created, Contract.already_existed, Contract.failed,
      Contract.succeeded.
    destruct H as [->|[-> ->]]; [now cbn|].
    now rewrite !andb_false_r. }
  destruct Hc as (-> & -> & ->). reflexivity.
Qed.

Lemma analyze_results_skips_foreign_witness :
  Processor.analyze_results
    (sample_results ++ [("status", VStr "success"); ("name", VStr "r4")] :: [])
  = Processor.analyze_results (sample_results ++ []).
Proof.
  apply (analyze_results_skips_foreign sample_results []
           [("status", VStr "success"); ("name", VStr "r4")]).
  left. reflexivity.
Defined.

(** ** Structural comparison *)

Section ValueInduction.

Variable P : value -> Prop.
Hypothesis PNone : P VNone.
Hypothesis PBool : forall b, P (VBool b).
Hypothesis PInt : forall n, P (VInt n).
Hypothesis PStr : forall s, P (VStr s).
Hypothesis PList : forall l, Forall P l -> P (VList l).
Hypothesis PDict : forall d, Forall (fun kv => P (snd kv)) d -> P (VDict d).

Fixpoint value_nested_ind (v : value) : P v :=
  match v with
  | VNone => PNone
  | VBool b => PBool b
  | VInt n => PInt n
  | VStr s => PStr s
  | VList l =>
      PList l
        ((fix items (l : list value) : Forall P l :=
            match l with
            | [] => Forall_nil P
            | x :: rest => Forall_cons x (value_nested_ind x) (items rest)
            end) l)
  | VDict d =>
      PDict d
        ((fix fields (d : list (string * value))
            : Forall (fun kv => P (snd kv)) d :=
            match d with
            | [] => Forall_nil _
            | kv :: rest =>
                Forall_cons kv (value_nested_ind (snd kv)) (fields rest)
            end) d)
  end.

End ValueInduction.

Lemma proper_list (l : list value) :
  proper (VList l) = true <-> Forall (fun x => proper x = true) l.
Proof.
  induction l as [|x rest IH].
  - split; [constructor|reflexivity].
  - change (proper (VList (x :: rest)))
      with (proper x && proper (VList rest)).
    rewrite andb_true_iff, IH. split.
    + intros [Hx Hr]. now constructor.
    + intro H. inversion H; subst. now split.
Qed.

Lemma proper_dict (d : list (string * value)) :
  proper (VDict d) = true <->
  distinct_keys d = true /\ Forall (fun kv => proper (snd kv) = true) d.
Proof.
  assert (Hall : forall d : list (string * value),
            (fix all (d : list (string * value)) : bool :=
               match d with
               | [] => true
               | (_, x) :: rest => proper x && all rest
               end) d = true
            <-> Forall (fun kv => proper (snd kv) = true) d).
  { induction d0 as [|[k x] rest IH].
    - split; [constructor|reflexivity].
    - rewrite andb_true_iff, IH. split.
      + intros [Hx Hr]. now constructor.
      + intro H. inversion H; subst. now split. }
  cbn [proper]. now rewrite andb_true_iff, Hall.
Qed.

Lemma dict_get_In {A : Type} (d : list (string * A)) (k : string) (x : A) :
  distinct_keys d = true -> In (k, x) d -> dict_get k d = Some x.
Proof.
  induction d as [|[k' x'] rest IH]; intros Hd Hin; [destruct Hin|].
  cbn in Hd. apply andb_true_iff in Hd as [Hk Hrest].
  destruct Hin as [Heq|Hin].
  - injection Heq as -> ->. cbn. now rewrite String.eqb_refl.
  - cbn. destruct (String.eqb k k') eqn:E.
    + apply String.eqb_eq in E. subst k'.
      unfold dict_has in Hk. rewrite (IH Hrest Hin) in Hk. discriminate.
    + now apply IH.
Qed.

Lemma eq_fields_refl (d a : list (string * value)) :
  (forall k x, In (k, x) a -> dict_get k d = Some x) ->
  Forall (fun kv => py_eq (snd kv) (snd kv) = true) a ->
  (fix eq_fields (a : list (string * value)) {struct a} : bool :=
     match a with
     | [] => true
     | (k, x) :: a' =>
         match dict_get k d with
         | Some y => py_eq x y && eq_fields a'
         | None => false
         end
     end) a = true.
Proof.
  intros Hsub Hall. induction Hall as [|[k x] rest Hx _ IH]; [reflexivity|].
  rewrite (Hsub k x) by now left. cbn [snd] in Hx. rewrite Hx.
  apply IH. intros k' x' Hin. apply Hsub. now right.
Qed.

Lemma Forall_modus {A : Type} (P Q : A -> Prop) (l : list A) :
  Forall (fun x => P x -> Q x) l -> Forall P l -> Forall Q l.
Proof.
  induction 1 as [|x rest Hx _ IH]; intro H; [constructor|].
  inversion H; subst. constructor; auto.
Qed.

Lemma py_eq_refl (v : value) : proper v = true -> py_eq v v = true.
Proof.
  induction v as [|b|n|s|l IH|d IH] using value_nested_ind; intro Hp.
  - reflexivity.
  - cbn. now destruct b.
  - cbn. apply Z.eqb_refl.
  - cbn. apply String.eqb_refl.
  - apply proper_list in Hp. cbn [py_eq].
    pose proof (Forall_modus _ _ _ IH Hp) as Hall. clear IH Hp.
    induction Hall as [|x rest Hx _ IHrest]; [reflexivity|].
    now rewrite Hx.
  - apply proper_dict in Hp as [Hkeys Hp]. cbn [py_eq].
    rewrite Nat.eqb_refl. cbn [andb].
    apply eq_fields_refl.
    + intros k x. now apply dict_get_In.
    + exact (Forall_modus _ _ _ IH Hp).
Qed.

Lemma deep_compare_dict (d1 d2 : list (string * value)) :
  Diff.deep_compare (VDict d1) (VDict d2)
  = (fix over_keys (items : list (string * value)) : bool :=
       match items with
       | [] => false
       | (key, v) :: rest =>
           match dict_get key d2 with
           | None => true
           | Some v2 => if Diff.deep_compare v v2 then true else over_keys rest
           end
       end) d1.
Proof. reflexivity. Qed.

Lemma deep_compare_list (l1 l2 : list value) :
  Diff.deep_compare (VList l1) (VList l2)
  = if negb (Nat.eqb (length l1) (length l2)) then true
    else
      (fix over_pairs (a b : list value) {struct a} : bool :=
         match a, b with
         | item1 :: a', item2 :: b' =>
             match item1, item2 with
             | VDict _, VDict _ =>
                 if Diff.deep_compare item1 item2 then true
                 else over_pairs a' b'
             | _, _ =>
                 if negb (py_eq item1 item2) then true else over_pairs a' b'
             end
         | _, _ => false
         end) l1 l2.
Proof. destruct l1, l2; reflexivity. Qed.

Lemma over_keys_same (d a : list (string * value)) :
  (forall k x, In (k, x) a -> dict_get k d = Some x) ->
  Forall (fun kv => Diff.deep_compare (snd kv) (snd kv) = false) a ->
  (fix over_keys (items : list (string * value)) : bool :=
     match items with
     | [] => false
     | (key, v) :: rest =>
         match dict_get key d with
         | None => true
         | Some v2 => if Diff.deep_compare v v2 then true else over_keys rest
         end
     end) a = false.
Proof.
  intros Hsub Hall. induction Hall as [|[k x] rest Hx _ IH]; [reflexivity|].
  rewrite (Hsub k x) by now left. cbn [snd] in Hx. rewrite Hx.
  apply IH. intros k' x' Hin. apply Hsub. now right.
Qed.

Lemma deep_compare_refl (v : value) :
  proper v = true -> Diff.deep_compare v v = false.
Proof.
  induction v as [|b|n|s|l IH|d IH] using value_nested_ind; intro Hp.
  - reflexivity.
  - cbn. now destruct b.
  - cbn. now rewrite Z.eqb_refl.
  - cbn. now rewrite String.eqb_refl.
  - rewrite deep_compare_list, Nat.eqb_refl. cbn [negb].
    apply proper_list in Hp.
    pose proof (Forall_modus _ _ _ IH Hp) as Hall. clear IH.
    induction Hall as [|x rest Hx _ IHrest]; [reflexivity|].
    inversion Hp; subst.
    assert (Hxx : py_eq x x = true) by now apply py_eq_refl.
    destruct x; rewrite ?Hx, ?Hxx; cbn [negb]; now apply IHrest.
  - rewrite deep_compare_dict.
    apply proper_dict in Hp as [Hkeys Hp].
    pose proof (Forall_modus _ _ _ IH Hp) as Hall. clear IH Hp.
    apply over_keys_same; [|exact Hall].
    intros k x. now apply dict_get_In.
Qed.

Lemma dict_get_In_some {A : Type} (d : list (string * A)) (k : string) (x : A) :
  In (k, x) d -> dict_get k d <> None.
Proof.
  induction d as [|[k' x'] rest IH]; intro Hin; [destruct Hin|].
  cbn. destruct (String.eqb k k') eqn:E; [discriminate|].
  destruct Hin as [Heq|Hin]; [|now apply IH].
  injection Heq as -> _. now rewrite String.eqb_refl in E.
Qed.

Lemma existsb_agree {A : Type} (f g : A -> bool) (l : list A) :
  (forall x, In x l -> f x = g x) -> existsb f l = existsb g l.
Proof.
  induction l as [|x rest IH]; intro H; [reflexivity|].
  cbn. rewrite (H x) by now left. rewrite IH; [reflexivity|].
  intros y Hy. apply H. now right.
Qed.

(** X4.  An object whose fields, [name] aside, are all found in the current
    object with the same value needs no update, whatever other fields the
    current object holds; in particular a record compared with itself. *)
Theorem needs_update_matching_fields (new_object current : record) (n : value) :
  dict_get "name" new_object = Some n ->
  (forall k v, In (k, v) new_object -> k <> "name" ->
     dict_get k current = Some v /\ proper v = true) ->
  Diff.needs_update new_object (VDict current) = Ok false.
Proof.
  intros Hname Hsame. unfold Diff.needs_update.
  rewrite (needs_update_with_spec _ new_object current n Hname).
  destruct current as [|c current']; [reflexivity|].
  destruct (existsb _ new_object) eqn:E; [|reflexivity].
  apply existsb_exists in E as ([k v] & Hin & Hchanged).
  unfold field_changed in Hchanged. cbn [fst snd] in Hchanged.
  apply andb_true_iff in Hchanged as [Hk Hd].
  apply negb_true_iff, String.eqb_neq in Hk.
  destruct (Hsame k v Hin Hk) as [Hget Hp].
  unfold existing in Hd. rewrite Hget, (deep_compare_refl v Hp) in Hd.
  discriminate.
Qed.

Lemma needs_update_matching_fields_witness :
  Diff.needs_update
    [("name", VStr "web"); ("tag", VList [VStr "dmz"]);
     ("spec", VDict [("port", VInt 443)])]
    (VDict [("id", VStr "7"); ("name", VStr "web"); ("folder", VStr "Shared");
            ("spec", VDict [("port", VInt 443)]); ("tag", VList [VStr "dmz"])])
  = Ok false.
Proof.
  apply (needs_update_matching_fields _ _ (VStr "web")); [reflexivity|].
  intros k v [H|[H|[H|[]]]] Hk; injection H as <- <-;
    [congruence|split; reflexivity|split; reflexivity].
Defined.

Section NeedsUpdateEdges.

Variable compare : value -> value -> exn + bool.

(** X5.  A field that only the current object has plays no part: with or
    without it (the current object not becoming empty), [needs_update]
    answers the same, whatever the comparison of a field does. *)
Theorem needs_update_ignores_current_only (new_object pre post : record)
  (n x : value) (k : string) :
  dict_get "name" new_object = Some n ->
  dict_get k new_object = None ->
  pre ++ post <> [] ->
  Diff.needs_update_with compare new_object (VDict (pre ++ (k, x) :: post))
  = Diff.needs_update_with compare new_object (VDict (pre ++ post)).
Proof.
  intros Hname Hk Hne.
  rewrite !(needs_update_with_spec compare new_object _ n Hname).
  destruct (pre ++ post) as [|c rest] eqn:Ec; [congruence|].
  destruct (pre ++ (k, x) :: post) as [|c' rest'] eqn:Ec';
    [now destruct pre|].
  rewrite <- Ec, <- Ec'. f_equal. apply existsb_agree.
  intros [key v] Hin. unfold field_changed, existing. cbn [fst snd].
  assert (Hkey : k <> key).
  { intros <-. now apply (dict_get_In_some new_object k v). }
  now rewrite dict_get_skip.
Qed.

Lemma compare_fields_without_name (new_object current : record) :
  dict_get "name" new_object = None ->
  forall items,
    Diff.compare_fields compare new_object (VDict current) items
      = Raise KeyError
    \/ Diff.compare_fields compare new_object (VDict current) items = Ok None.
Proof.
  intros Hname. induction items as [|[key value] rest IH]; [now right|].
  cbn [Diff.compare_fields].
  destruct (String.eqb key "name"); [exact IH|].
  unfold py_get.
  destruct (dict_get key current) as [y|]; cbn [bind];
    unfold Diff.log_name, item, subscript; rewrite Hname;
    [destruct (compare value y) as [e|[|]]
    |destruct (compare value VNone) as [e|[|]]];
    cbn; auto.
Qed.

(** X6.  On an object without a [name], [needs_update] against a current
    mapping never answers: every path reads [new_object['name']] for a log
    line, outside the [try] or in its handler, and raises [KeyError]. *)
Theorem needs_update_without_name_raises (new_object current : record) :
  dict_get "name" new_object = None ->
  Diff.needs_update_with compare new_object (VDict current) = Raise KeyError.
Proof.
  intro Hname. unfold Diff.needs_update_with.
  destruct current as [|c current'].
  - cbn. unfold Diff.log_name, item, subscript. now rewrite Hname.
  - cbn [py_truthy negb].
    destruct (compare_fields_without_name new_object (c :: current') Hname
                new_object) as [-> | ->]; [reflexivity|].
    cbn [bind]. unfold Diff.log_name, item, subscript. now rewrite Hname.
Qed.

End NeedsUpdateEdges.

Lemma needs_update_ignores_current_only_witness :
  Diff.needs_update_with fragile_compare
    [("name", VStr "web"); ("port", VInt 443)]
    (VDict ([("name", VStr "web")] ++ ("folder", VStr "Shared")
            :: [("port", VInt 80)]))
  = Diff.needs_update_with fragile_compare
      [("name", VStr "web"); ("port", VInt 443)]
      (VDict ([("name", VStr "web")] ++ [("port", VInt 80)])).
Proof.
  apply (needs_update_ignores_current_only fragile_compare
           [("name", VStr "web"); ("port", VInt 443)]
           [("name", VStr "web")] [("port", VInt 80)] (VStr "web")
           (VStr "Shared") "folder");
    [reflexivity|reflexivity|discriminate].
Defined.

Lemma needs_update_without_name_raises_witness :
  Diff.needs_update_with fragile_compare [("port", VInt 443)]
    (VDict [("name", VStr "web"); ("port", VInt 80)])
  = Raise KeyError.
Proof.
  apply (needs_update_without_name_raises fragile_compare [("port", VInt 443)]
           [("name", VStr "web"); ("port", VInt 80)]).
  reflexivity.
Defined.

Lemma over_keys_skip (pre post a : list (string * value)) (k : string)
  (x : value) :
  Forall (fun kv => fst kv <> k) a ->
  (fix over_keys (items : list (string * value)) : bool :=
     match items with
     | [] => false
     | (key, v) :: rest =>
         match dict_get key (pre ++ (k, x) :: post) with
         | None => true
         | Some v2 => if Diff.deep_compare v v2 then true else over_keys rest
         end
     end) a
  = (fix over_keys (items : list (string * value)) : bool :=
       match items with
       | [] => false
       | (key, v) :: rest =>
           match dict_get key (pre ++ post) with
           | None => true
           | Some v2 => if Diff.deep_compare v v2 then true else over_keys rest
           end
       end) a.
Proof.
  induction 1 as [|[key v] rest Hkey _ IH]; [reflexivity|].
  cbn [fst] in Hkey. rewrite dict_get_skip by congruence. now rewrite IH.
Qed.

Lemma keys_differ {A : Type} (d : list (string * A)) (k : string) :
  dict_get k d = None -> Forall (fun kv => fst kv <> k) d.
Proof.
  induction d as [|[k' x] rest IH]; intro H; [constructor|].
  cbn in H. destruct (String.eqb k k') eqn:E; [discriminate|].
  apply String.eqb_neq in E. constructor; [cbn; congruence|now apply IH].
Qed.

(** X7.  [deep_compare] on two mappings looks at the keys of the first one
    only: a key of the desired mapping that the current mapping lacks is a
    difference, a key that only the current mapping has is not looked at;
    two lists of different lengths differ. *)
Theorem deep_compare_one_sided (d1 d2 pre post : list (string * value))
  (l1 l2 : list value) (k k' : string) (v x : value) :
  (dict_get k d1 = Some v -> dict_get k d2 = None ->
   Diff.deep_compare (VDict d1) (VDict d2) = true)
  /\ (dict_get k' d1 = None ->
      Diff.deep_compare (VDict d1) (VDict (pre ++ (k', x) :: post))
      = Diff.deep_compare (VDict d1) (VDict (pre ++ post)))
  /\ (length l1 <> length l2 ->
      Diff.deep_compare (VList l1) (VList l2) = true).
Proof.
  split; [|split].
  - rewrite deep_compare_dict. intros H1 H2.
    induction d1 as [|[key y] rest IH]; [discriminate|].
    cbn in H1. destruct (String.eqb k key) eqn:E.
    + apply String.eqb_eq in E. subst key. now rewrite H2.
    + destruct (dict_get key d2) as [y2|]; [|reflexivity].
      destruct (Diff.deep_compare y y2); [reflexivity|]. now apply IH.
  - intro H. rewrite !deep_compare_dict.
    apply over_keys_skip. now apply keys_differ.
  - intro H. rewrite deep_compare_list.
    apply Nat.eqb_neq in H. now rewrite H.
Qed.

Lemma deep_compare_one_sided_witness :
  Diff.deep_compare (VDict [("port", VInt 443); ("proto", VNone)])
    (VDict [("port", VInt 443)]) = true
  /\ Diff.deep_compare (VDict [("port", VInt 443)])
       (VDict ([("port", VInt 443)] ++ ("folder", VStr "Shared") :: []))
     = Diff.deep_compare (VDict [("port", VInt 443)])
         (VDict ([("port", VInt 443)] ++ []))
  /\ Diff.deep_compare (VList [VInt 1]) (VList [VInt 1; VInt 2]) = true.
Proof.
  destruct (deep_compare_one_sided
              [("port", VInt 443); ("proto", VNone)] [("port", VInt 443)]
              [] [] [VInt 1] [VInt 1; VInt 2] "proto" "x" VNone VNone)
    as (Ha & _ & Hc).
  destruct (deep_compare_one_sided
              [("port", VInt 443)] [] [("port", VInt 443)] []
              [] [] "x" "folder" VNone (VStr "Shared"))
    as (_ & Hb & _).
  split; [apply Ha; reflexivity|].
  split; [apply Hb; reflexivity|].
  apply Hc. discriminate.
Defined.

(** ** Endpoint and key strings *)

Lemma replace_char_clean (c : ascii) (s : string) :
  has_char c (str_replace (String c EmptyString) "" s) = false
  /\ (has_char c s = false -> str_replace (String c EmptyString) "" s = s).
Proof.
  unfold str_replace. induction s as [|a rest [IH1 IH2]]; [now split|].
  cbn [replace_from starts_with String.length Nat.sub has_char].
  destruct (Ascii.eqb c a) eqn:E.
  - apply Ascii.eqb_eq in E. subst a. cbn [andb].
    destruct rest; cbn [starts_with];
      (split; [exact IH1|rewrite Ascii.eqb_refl; discriminate]).
  - cbn [andb]. cbn [has_char].
    rewrite Ascii.eqb_sym, E. cbn [orb].
    split; [exact IH1|]. intro H. f_equal. now apply IH2.
Qed.

(** X8.  [s.replace('?', '')], by which an endpoint becomes the stem of a
    move or update address, leaves no [?] behind and does not touch a string
    without one; [_generate_key_name] leaves no space behind, does not touch
    a name without one and is idempotent. *)
Theorem replace_removes_every_occurrence (s : string) :
  has_char "?" (str_replace "?" "" s) = false
  /\ (has_char "?" s = false -> str_replace "?" "" s = s)
  /\ has_char " " (Diff._generate_key_name s) = false
  /\ (has_char " " s = false -> Diff._generate_key_name s = s)
  /\ Diff._generate_key_name (Diff._generate_key_name s)
     = Diff._generate_key_name s.
Proof.
  assert (Hkey : has_char " " (Diff._generate_key_name s) = false
                 /\ (has_char " " s = false -> Diff._generate_key_name s = s)).
  { unfold Diff._generate_key_name.
    induction s as [|a rest [IH1 IH2]]; [now split|].
    cbn [replace_char has_char].
    destruct (Ascii.eqb a " ") eqn:E.
    - cbn. split; [exact IH1|discriminate].
    - cbn [has_char]. rewrite E. cbn [orb].
      split; [exact IH1|]. intro H. f_equal. now apply IH2. }
  destruct (replace_char_clean "?" s) as [H1 H2].
  destruct Hkey as [H3 H4].
  repeat split; try assumption.
  unfold Diff._generate_key_name in *.
  generalize (replace_char " " "-" s) H3. intros t Ht.
  clear -Ht. induction t as [|a rest IH]; [reflexivity|].
  cbn [has_char] in Ht. apply orb_false_iff in Ht as [Ha Hr].
  cbn [replace_char]. rewrite Ha. f_equal. now apply IH.
Qed.

Lemma replace_removes_every_occurrence_witness :
  has_char "?" "/sse/config/v1/security-rules" = false
  /\ str_replace "?" "" "/sse/config/v1/security-rules"
     = "/sse/config/v1/security-rules"
  /\ Diff._generate_key_name "SecurityRule" = "SecurityRule".
Proof.
  destruct (replace_removes_every_occurrence "/sse/config/v1/security-rules")
    as (_ & H2 & _).
  destruct (replace_removes_every_occurrence "SecurityRule")
    as (_ & _ & _ & H4 & _).
  split; [reflexivity|]. split; [apply H2; reflexivity|apply H4; reflexivity].
Defined.

(** ** The catalog of object types *)

Lemma dict_has_In {A : Type} (d : list (string * A)) (k : string) :
  dict_has k d = false -> ~ In k (map fst d).
Proof.
  unfold dict_has. induction d as [|[k' x] rest IH]; intros H Hin;
    [destruct Hin|].
  cbn in H, Hin. destruct (String.eqb k k') eqn:E; [discriminate|].
  apply String.eqb_neq in E. destruct Hin as [->|Hin]; [congruence|].
  now apply IH.
Qed.

Lemma distinct_keys_NoDup {A : Type} (d : list (string * A)) :
  distinct_keys d = true -> NoDup (map fst d).
Proof.
  induction d as [|[k x] rest IH]; intro H; [constructor|].
  cbn in H. apply andb_true_iff in H as [Hk Hrest].
  apply negb_true_iff in Hk. cbn. constructor.
  - now apply dict_has_In.
  - now apply IH.
Qed.

(** X9.  Every class of [scm/obj.py] but the base class has an endpoint, so
    [get_endpoint] raises [NotImplementedError] for the base class only; each
    endpoint starts with [/sse/config/v1/]; the class names are pairwise
    distinct and free of spaces, so each is its own key in the parsed data,
    and no two classes share an endpoint. *)
Theorem catalog_endpoints :
  Diff.get_endpoint Obj.PanApiHandler = Raise NotImplementedError
  /\ Forall (fun t =>
               exists e, Diff.get_endpoint t = Ok e
                         /\ starts_with "/sse/config/v1/" e = true
                         /\ Diff._generate_key_name (Diff.type_name t)
                            = Diff.type_name t)
       Obj.classes
  /\ NoDup (map Diff.type_name Obj.classes)
  /\ NoDup (map Diff.type_endpoint Obj.classes).
Proof.
  split; [reflexivity|]. split; [|split].
  - repeat constructor; eexists; repeat split; reflexivity.
  - change (map Diff.type_name Obj.classes)
      with (map fst (map (fun t => (Diff.type_name t, tt)) Obj.classes)).
    apply distinct_keys_NoDup. vm_compute. reflexivity.
  - assert (H : NoDup (map fst
                         (map (fun t =>
                                 (match Diff.type_endpoint t with
                                  | Some e => e
                                  | None => ""
                                  end, tt)) Obj.classes))).
    { apply distinct_keys_NoDup. vm_compute. reflexivity. }
    rewrite map_map in H. cbn [fst] in H.
    apply (NoDup_map_inv (fun o => match o with Some e => e | None => "" end)).
    now rewrite map_map.
Qed.

(** ** Creation calls *)

Section CreationFacts.

Context {R : Type}.
Variable api_handler : gateway R.

Lemma submit_all_spec (calls : list (url * record)) (w : world R) :
  exists fs s,
    Processor.submit_all api_handler calls w
    = (Ok fs, World s (log w) (max_workers w))
    /\ length fs = length calls
    /\ (calls = [] -> s = remote w).
Proof.
  revert w. induction calls as [|[u data] rest IH]; intro w.
  - exists [], (remote w). destruct w. repeat split.
  - cbn [Processor.submit_all]. unfold ebind, submit_post.
    destruct (api_post api_handler u data (remote w)) as [f s1].
    destruct (IH (World s1 (log w) (max_workers w))) as (fs & s2 & -> & Hl & _).
    exists (f :: fs), s2. cbn. repeat split; [now rewrite Hl|discriminate].
Qed.

Lemma gather_spec (futures : list (exn + record)) :
  forall (results : list record) (w : world R),
    Processor.gather futures results w
    = (Ok (results ++ returned futures),
       World (remote w) (log w ++ map line_of futures) (max_workers w)).
Proof.
  induction futures as [|[e|response] rest IH]; intros results w.
  - cbn. rewrite !app_nil_r. now destruct w.
  - cbn [Processor.gather]. unfold ebind, logger. rewrite IH.
    cbn [remote log max_workers returned map line_of].
    now rewrite <- app_assoc.
  - cbn [Processor.gather]. unfold ebind, logger. rewrite IH.
    cbn [remote log max_workers returned map line_of].
    now rewrite <- !app_assoc.
Qed.


(** X11.  The counts [post_entries] returns never add up to more than the
    number of entries it was given. *)
Theorem post_entries_counts_bounded (folder_scope : string)
  (entries : list record) (obj_type : Diff.obj_type)
  (extra_query_params : string) (w w' : world R)
  (created exists_ errors : nat) :
  Processor.post_entries api_handler folder_scope entries obj_type
    extra_query_params w = (Ok (created, exists_, errors), w') ->
  created + exists_ + errors <= length entries.
Proof.
  destruct entries as [|entry rest].
  - cbn. intro H. injection H as <- <- <- _. lia.
  - unfold Processor.post_entries.
    destruct (Diff.get_endpoint obj_type) as [e| |];
      [|unfold ebind, lift; discriminate..].
    unfold ebind at 1. unfold lift at 1.
    unfold ebind at 1. unfold logger at 1.
    unfold ebind at 1. unfold lift at 1.
    unfold ebind at 1.
    unfold Processor.create_objects.
    unfold ebind at 1. unfold workers at 1.
    unfold ebind at 1. unfold logger at 1.
    unfold ebind at 1.
    match goal with
    | |- context [Processor.submit_all _ ?calls ?w1] =>
        destruct (submit_all_spec calls w1) as (futures & s & -> & Hlen & _)
    end.
    rewrite gather_spec, length_map in *. cbn [skipn app] in *.
    pose proof (tally_bound (returned futures)) as Hb.
    rewrite analyze_results_tally.
    unfold ebind, Processor.log_summary, logger, ret.
    intro H. injection H as <- <- <- _.
    assert (Hr : length (returned futures) <= length futures).
    { clear. induction futures as [|[e|r] rest IH]; cbn; lia. }
    cbn [length] in *. lia.
Qed.

End CreationFacts.

Lemma post_entries_counts_bounded_witness :
  Processor.post_entries StoringRemote.handler "Mobile Users"
    [[("name", VStr "r1")]; [("name", VStr "r2")]; [("name", VStr "r1")]]
    SecurityRule "position=pre" (start [])
  = (Ok (2, 1, 0),
     snd (Processor.post_entries StoringRemote.handler "Mobile Users"
            [[("name", VStr "r1")]; [("name", VStr "r2")];
             [("name", VStr "r1")]]
            SecurityRule "position=pre" (start [])))
  /\ 2 + 1 + 0
     <= length [[("name", VStr "r1")]; [("name", VStr "r2")];
                [("name", VStr "r1")]].
Proof.
  assert (H : Processor.post_entries StoringRemote.handler "Mobile Users"
                [[("name", VStr "r1")]; [("name", VStr "r2")];
                 [("name", VStr "r1")]]
                SecurityRule "position=pre" (start [])
              = (Ok (2, 1, 0),
                 snd (Processor.post_entries StoringRemote.handler
                        "Mobile Users"
                        [[("name", VStr "r1")]; [("name", VStr "r2")];
                         [("name", VStr "r1")]]
                        SecurityRule "position=pre" (start []))))
    by reflexivity.
  split; [exact H|].
  exact (post_entries_counts_bounded StoringRemote.handler _ _ _ _ _ _ _ _ _ H).
Defined.

(** ** Planning and checking the moves *)

Section MoveFacts.

Context {R : Type}.

Lemma plan_moves_spec (endpoint position : string) (ids : Processor.vdict)
  (current_order desired_order : list value) :
  forall (w w' : world R) (moves : list (url * record)),
    Processor.plan_moves endpoint position ids current_order desired_order w
    = (Ok moves, w') ->
    Forall (fun m =>
              exists rule_id destination_rule_id,
                m = (MoveUrl endpoint rule_id,
                     move_payload position destination_rule_id)) moves
    /\ length moves <= length desired_order - 1
    /\ remote w' = remote w /\ max_workers w' = max_workers w
    /\ length (log w') = length (log w) + length moves.
Proof.
  induction desired_order as [|a rest IH]; intros w w' moves H.
  - injection H as <- <-. cbn. repeat split; [constructor|lia..].
  - destruct rest as [|b rest'].
    + injection H as <- <-. cbn. repeat split; [constructor|lia..].
    + rewrite plan_moves_step in H.
      apply ebind_Ok in H as (i & w1 & Hi & H).
      apply ebind_Ok in H as (j & w2 & Hj & H).
      unfold lift in Hi, Hj.
      injection Hi as _ <-. injection Hj as _ <-.
      destruct (Nat.ltb j i).
      * apply ebind_Ok in H as (rule_id & w3 & H3 & H).
        apply ebind_Ok in H as (dest & w4 & H4 & H).
        apply ebind_Ok in H as (u & w5 & H5 & H).
        apply ebind_Ok in H as (moves' & w6 & H6 & H).
        unfold lift in H3, H4. injection H3 as _ <-. injection H4 as _ <-.
        unfold logger in H5. injection H5 as _ <-.
        unfold ret in H. injection H as <- <-.
        apply IH in H6 as (Hall & Hlen & Hr & Hm & Hlog).
        cbn [remote log max_workers] in *.
        rewrite length_app in Hlog. cbn [length] in *.
        repeat split; try assumption; try lia.
        constructor; [now exists rule_id, dest|exact Hall].
      * apply IH in H as (Hall & Hlen & Hr & Hm & Hlog).
        cbn [length] in *. repeat split; try assumption; lia.
Qed.

(** X12.  Every move [reorder_rules] plans is a move "before" in the
    rulebase [position], to the address of the rule to move; there are fewer
    moves than desired names; planning writes one log line for each move and
    does not touch the remote. *)
Theorem plan_moves_shape (endpoint position : string) (ids : Processor.vdict)
  (current_order desired_order : list value) (w w' : world R)
  (moves : list (url * record)) :
  Processor.plan_moves endpoint position ids current_order desired_order w
  = (Ok moves, w') ->
  Forall (fun m =>
            exists rule_id destination_rule_id,
              m = (MoveUrl endpoint rule_id,
                   move_payload position destination_rule_id)) moves
  /\ length moves <= length desired_order - 1
  /\ remote w' = remote w /\ max_workers w' = max_workers w
  /\ length (log w') = length (log w) + length moves.
Proof. apply plan_moves_spec. Qed.

(** X13.  A move that answers with another status than "success" is logged
    and the loop goes on: when every move returned a response with a status,
    [check_moves] returns, with one error line for each response that is not
    a success; a move that raised is re-raised at its turn. *)
Theorem check_moves_tolerates_failure (futures : list (exn + record))
  (w : world R) :
  (Forall (fun f => exists r, f = inr r /\ dict_has "status" r = true) futures ->
   Processor.check_moves futures w
   = (Ok tt,
      World (remote w)
        (log w ++ map EvMoveError (filter not_success (returned futures)))
        (max_workers w)))
  /\ (forall e rest,
        Processor.check_moves (inl e :: rest) w = (Raise e, w)).
Proof.
  split; [|reflexivity].
  intro Hall. revert w.
  induction Hall as [|f rest (r & -> & Hs) _ IH]; intro w.
  - cbn. rewrite app_nil_r. now destruct w.
  - cbn [Processor.check_moves returned filter].
    unfold ebind at 1. unfold lift at 1. cbn [of_call].
    unfold ebind at 1. unfold lift at 1.
    unfold item, subscript, not_success, Contract.field.
    unfold dict_has in Hs.
    destruct (dict_get "status" r) as [status|]; [|discriminate].
    unfold ebind at 1.
    destruct (negb (py_eq status (VStr "success"))).
    + unfold logger at 1. rewrite IH.
      cbn [remote log max_workers map]. now rewrite <- app_assoc.
    + unfold ret at 1. rewrite IH. reflexivity.
Qed.

End MoveFacts.

Lemma plan_moves_shape_witness :
  Processor.plan_moves "/sse/config/v1/security-rules" "pre"
    [(VStr "A", VStr "1"); (VStr "B", VStr "2"); (VStr "C", VStr "3")]
    [VStr "C"; VStr "B"; VStr "A"] [VStr "A"; VStr "B"; VStr "C"]
    (start rules_ABC)
  = (Ok [(MoveUrl "/sse/config/v1/security-rules" (VStr "1"),
          move_payload "pre" (VStr "2"));
         (MoveUrl "/sse/config/v1/security-rules" (VStr "2"),
          move_payload "pre" (VStr "3"))],
     snd (Processor.plan_moves "/sse/config/v1/security-rules" "pre"
            [(VStr "A", VStr "1"); (VStr "B", VStr "2"); (VStr "C", VStr "3")]
            [VStr "C"; VStr "B"; VStr "A"] [VStr "A"; VStr "B"; VStr "C"]
            (start rules_ABC)))
  /\ 2 <= length [VStr "A"; VStr "B"; VStr "C"] - 1.
Proof.
  assert (H : Processor.plan_moves "/sse/config/v1/security-rules" "pre"
                [(VStr "A", VStr "1"); (VStr "B", VStr "2");
                 (VStr "C", VStr "3")]
                [VStr "C"; VStr "B"; VStr "A"] [VStr "A"; VStr "B"; VStr "C"]
                (start rules_ABC)
              = (Ok [(MoveUrl "/sse/config/v1/security-rules" (VStr "1"),
                      move_payload "pre" (VStr "2"));
                     (MoveUrl "/sse/config/v1/security-rules" (VStr "2"),
                      move_payload "pre" (VStr "3"))],
                 snd (Processor.plan_moves "/sse/config/v1/security-rules"
                        "pre"
                        [(VStr "A", VStr "1"); (VStr "B", VStr "2");
                         (VStr "C", VStr "3")]
                        [VStr "C"; VStr "B"; VStr "A"]
                        [VStr "A"; VStr "B"; VStr "C"] (start rules_ABC))))
    by reflexivity.
  split; [exact H|].
  exact (proj1 (proj2 (plan_moves_shape _ _ _ _ _ _ _ _ H))).
Defined.

Lemma check_moves_tolerates_failure_witness :
  Processor.check_moves
    [inr [("status", VStr "success")]; inr [("status", VStr "error")]]
    (start rules_ABC)
  = (Ok tt,
     World rules_ABC [EvMoveError [("status", VStr "error")]] 4).
Proof.
  apply (proj1 (check_moves_tolerates_failure
                  [inr [("status", VStr "success")];
                   inr [("status", VStr "error")]] (start rules_ABC))).
  repeat constructor; eexists; split; reflexivity.
Defined.

(** ** What the calls depend on *)

Section SameCalls.

Context {R : Type}.
Variables gw1 gw2 : gateway R.

Lemma submit_all_agree (calls : list (url * record)) :
  Forall (fun call =>
            forall s, api_post gw1 (fst call) (snd call) s
                      = api_post gw2 (fst call) (snd call) s) calls ->
  forall w, Processor.submit_all gw1 calls w = Processor.submit_all gw2 calls w.
Proof.
  induction 1 as [|[u data] rest Hcall _ IH]; intro w; [reflexivity|].
  cbn [Processor.submit_all]. unfold ebind, submit_post.
  cbn [fst snd] in Hcall. rewrite Hcall.
  destruct (api_post gw2 u data (remote w)) as [f s]. now rewrite IH.
Qed.

Lemma ebind_cong {A B : Type} (m1 m2 : eff R A) (k1 k2 : A -> eff R B)
  (w : world R) :
  m1 w = m2 w ->
  (forall a w', m2 w = (Ok a, w') -> k1 a w' = k2 a w') ->
  ebind m1 k1 w = ebind m2 k2 w.
Proof.
  intros Hm Hk. unfold ebind. rewrite Hm.
  destruct (m2 w) as [[a| |] w']; try reflexivity. now apply Hk.
Qed.

(** X14.  [post_entries] calls the remote through [post] at one address
    only, the endpoint of the type followed by the extra parameters and
    [&folder=] and the scope: two gateways that agree there give the same
    run, whatever their [get] and their other [post] addresses do. *)
Theorem post_entries_calls_one_address (folder_scope : string)
  (entries : list record) (obj_type : Diff.obj_type)
  (extra_query_params e : string) (w : world R) :
  Diff.get_endpoint obj_type = Ok e ->
  (forall data s,
     api_post gw1
       (Url ((e ++ extra_query_params) ++ "&folder=" ++ folder_scope)%string)
       data s
     = api_post gw2
         (Url ((e ++ extra_query_params) ++ "&folder=" ++ folder_scope)%string)
         data s) ->
  Processor.post_entries gw1 folder_scope entries obj_type extra_query_params w
  = Processor.post_entries gw2 folder_scope entries obj_type
      extra_query_params w.
Proof.
  intros He Hpost. destruct entries as [|entry rest]; [reflexivity|].
  unfold Processor.post_entries. rewrite He.
  apply ebind_cong; [reflexivity|intros e1 w1 H1].
  unfold lift in H1. injection H1 as <- <-.
  apply ebind_cong; [reflexivity|intros u2 w2 _].
  apply ebind_cong; [reflexivity|intros e3 w3 H3].
  unfold lift in H3. injection H3 as <- <-.
  apply ebind_cong; [|reflexivity].
  unfold Processor.create_objects.
  apply ebind_cong; [reflexivity|intros n w4 _].
  apply ebind_cong; [reflexivity|intros u5 w5 _].
  apply ebind_cong; [|reflexivity].
  apply submit_all_agree.
  apply Forall_forall. intros call Hin.
  apply in_map_iff in Hin as (item_data & <- & _). cbn [fst snd].
  intro s. apply Hpost.
Qed.

Variables (obj_type : Diff.obj_type)
  (endpoint folder_scope limit position : string).

Hypothesis same_get :
  forall e s,
    Diff.get_endpoint obj_type = Ok e ->
    api_get gw1 (Some e) folder_scope limit position s
    = api_get gw2 (Some e) folder_scope limit position s.

Hypothesis same_move :
  forall rule_id data s,
    api_post gw1 (MoveUrl endpoint rule_id) data s
    = api_post gw2 (MoveUrl endpoint rule_id) data s.

Lemma reorder_loop_agree (ids : Processor.vdict) (desired_order : list value)
  (fuel : nat) :
  forall attempts current_order w,
    Processor.reorder_loop gw1 fuel obj_type endpoint folder_scope limit
      position ids desired_order attempts current_order w
    = Processor.reorder_loop gw2 fuel obj_type endpoint folder_scope limit
        position ids desired_order attempts current_order w.
Proof.
  induction fuel as [|fuel IH]; intros attempts current_order w;
    [reflexivity|].
  cbn [Processor.reorder_loop].
  destruct (negb (list_eq current_order desired_order)
            && Nat.ltb attempts Processor.max_attempts); [|reflexivity].
  apply ebind_cong; [reflexivity|intros moves w1 Hplan].
  destruct moves as [|m moves]; [reflexivity|].
  apply plan_moves_spec in Hplan as (Hall & _).
  apply ebind_cong; [reflexivity|intros n w2 _].
  apply ebind_cong; [reflexivity|intros u3 w3 _].
  apply ebind_cong.
  { apply submit_all_agree. apply Forall_forall. intros call Hin.
    rewrite Forall_forall in Hall.
    destruct (Hall call Hin) as (rid & did & ->). cbn [fst snd].
    intro s. apply same_move. }
  intros futures w4 _.
  apply ebind_cong; [reflexivity|intros u5 w5 _].
  apply ebind_cong; [reflexivity|intros e w6 He].
  unfold lift in He. injection He as He <-.
  apply ebind_cong.
  { unfold get. now rewrite (same_get e (remote w5) He). }
  intros all_rules w7 _.
  apply ebind_cong; [reflexivity|intros rules w8 _].
  apply ebind_cong; [reflexivity|intros order w9 _].
  apply IH.
Qed.

(** X15.  [reorder_rules] calls the remote through [get] at the endpoint of
    the type, with its scope, limit and position, and through [post] at move
    addresses of its [endpoint] only: two gateways that agree on these give
    the same run; it creates and updates nothing. *)
Theorem reorder_rules_calls_get_and_move (fuel : nat)
  (original_rules current_rules : list record) (w : world R) :
  Processor.reorder_rules gw1 fuel obj_type endpoint folder_scope
    original_rules current_rules limit position w
  = Processor.reorder_rules gw2 fuel obj_type endpoint folder_scope
      original_rules current_rules limit position w.
Proof.
  unfold Processor.reorder_rules, Processor.reorder_rules_run.
  apply ebind_cong; [|reflexivity].
  apply ebind_cong; [reflexivity|intros ids w1 _].
  apply ebind_cong; [reflexivity|intros order w2 _].
  apply ebind_cong; [reflexivity|intros desired w3 _].
  apply reorder_loop_agree.
Qed.

End SameCalls.

Lemma post_entries_calls_one_address_witness :
  Processor.post_entries StoringRemote.handler "Mobile Users"
    [[("name", VStr "r1")]] SecurityRule "position=pre" (start [])
  = Processor.post_entries listing_down "Mobile Users"
      [[("name", VStr "r1")]] SecurityRule "position=pre" (start []).
Proof.
  apply (post_entries_calls_one_address StoringRemote.handler listing_down
           "Mobile Users" [[("name", VStr "r1")]] SecurityRule "position=pre"
           "/sse/config/v1/security-rules?" (start []));
    [reflexivity|intros data s; reflexivity].
Defined.

Lemma reorder_rules_calls_get_and_move_witness :
  Processor.reorder_rules StoringRemote.handler 8 SecurityRule
    "/sse/config/v1/security-rules" "Mobile Users" desired_CAB rules_ABC
    "10000" "pre" (start rules_ABC)
  = Processor.reorder_rules OrderedRemote.handler 8 SecurityRule
      "/sse/config/v1/security-rules" "Mobile Users" desired_CAB rules_ABC
      "10000" "pre" (start rules_ABC).
Proof.
  apply (reorder_rules_calls_get_and_move StoringRemote.handler
           OrderedRemote.handler SecurityRule "/sse/config/v1/security-rules"
           "Mobile Users" "10000" "pre");
    [intros e s _; reflexivity|intros rule_id data s; reflexivity].
Defined.

(** ** Rules already in order *)

Lemma py_eq_refl_hashable (v : value) : hashable v = true -> py_eq v v = true.
Proof.
  intro H. apply py_eq_refl. now destruct v.
Qed.

Lemma list_eq_refl (l : list value) :
  Forall (fun v => hashable v = true) l -> list_eq l l = true.
Proof.
  induction 1 as [|v rest Hv _ IH]; [reflexivity|].
  cbn. now rewrite (py_eq_refl_hashable v Hv).
Qed.

Lemma vdict_set_keeps (k v n : value) (d : Processor.vdict) :
  Processor.vdict_get n d <> None ->
  Processor.vdict_get n (Processor.vdict_set k v d) <> None.
Proof.
  induction d as [|[k' v'] rest IH]; intro H; [now cbn in H|].
  cbn in *. destruct (py_eq k' k); cbn; destruct (py_eq k' n);
    try discriminate; auto.
Qed.

Lemma vdict_set_has (k v : value) (d : Processor.vdict) :
  py_eq k k = true ->
  Processor.vdict_get k (Processor.vdict_set k v d) <> None.
Proof.
  intro Hk. induction d as [|[k' v'] rest IH]; cbn.
  - rewrite Hk. discriminate.
  - destruct (py_eq k' k) eqn:E; cbn; rewrite E; [discriminate|exact IH].
Qed.

Lemma rule_ids_keys (current_rules : list record) :
  forall (names : list value) (acc : Processor.vdict),
    Processor.names_of current_rules = Ok names ->
    Forall (fun v => hashable v = true) names ->
    Forall (fun r => dict_has "id" r = true) current_rules ->
    exists ids,
      Processor.rule_ids current_rules acc = Ok ids
      /\ (forall n, In n names -> Processor.vdict_get n ids <> None)
      /\ (forall n, Processor.vdict_get n acc <> None ->
                    Processor.vdict_get n ids <> None).
Proof.
  induction current_rules as [|r rest IH]; intros names acc Hn Hh Hid.
  - injection Hn as <-. exists acc.
    split; [reflexivity|]. split; [intros n []|auto].
  - cbn [Processor.names_of] in Hn. cbn [Processor.rule_ids].
    destruct (item r "name") as [name| |]; try discriminate.
    cbn [bind] in *.
    destruct (Processor.names_of rest) as [names'| |]; try discriminate.
    cbn [bind] in Hn. injection Hn as <-.
    inversion Hh as [|? ? Hname Hh']; subst.
    inversion Hid as [|? ? Hr Hid']; subst.
    unfold item, subscript, dict_has in *.
    destruct (dict_get "id" r) as [id|]; [|discriminate].
    cbn [bind]. unfold hashed. rewrite Hname. cbn [bind].
    destruct (IH names' (Processor.vdict_set name id acc) eq_refl Hh' Hid')
      as (ids & Hids & Hnames & Hacc).
    exists ids. split; [exact Hids|]. split.
    + intros n [<-|Hin]; [|now apply Hnames].
      apply Hacc. apply vdict_set_has. now apply py_eq_refl_hashable.
    + intros n Hn. apply Hacc. now apply vdict_set_keeps.
Qed.

Lemma desired_present_all (ids : Processor.vdict) (original_rules : list record) :
  forall names,
    Processor.names_of original_rules = Ok names ->
    Forall (fun v => hashable v = true) names ->
    (forall n, In n names -> Processor.vdict_get n ids <> None) ->
    Processor.desired_present ids original_rules = Ok names.
Proof.
  induction original_rules as [|r rest IH]; intros names Hn Hh Hin.
  - exact Hn.
  - cbn [Processor.names_of] in Hn. cbn [Processor.desired_present].
    destruct (item r "name") as [name| |]; try discriminate.
    cbn [bind] in *.
    destruct (Processor.names_of rest) as [names'| |]; try discriminate.
    cbn [bind] in Hn. injection Hn as <-.
    inversion Hh as [|? ? Hname Hh']; subst.
    unfold hashed. rewrite Hname. cbn [bind].
    destruct (Processor.vdict_get name ids) eqn:E.
    + rewrite (IH names' eq_refl Hh'); [reflexivity|].
      intros n Hn. apply Hin. now right.
    + exfalso. apply (Hin name); [now left|exact E].
Qed.

(** X16.  When the current rules, each with an id, carry the names of the
    desired rules in the same order, [reorder_rules] returns at once: no
    call to the remote, no log line, whatever the fuel. *)
Theorem reorder_rules_in_order_is_noop {R : Type} (api_handler : gateway R)
  (fuel : nat) (obj_type : Diff.obj_type) (endpoint folder_scope : string)
  (original_rules current_rules : list record) (limit position : string)
  (names : list value) (w : world R) :
  Processor.names_of current_rules = Ok names ->
  Processor.names_of original_rules = Ok names ->
  Forall (fun v => hashable v = true) names ->
  Forall (fun r => dict_has "id" r = true) current_rules ->
  Processor.reorder_rules api_handler fuel obj_type endpoint folder_scope
    original_rules current_rules limit position w = (Ok VNone, w).
Proof.
  intros Hc Ho Hh Hid.
  destruct (rule_ids_keys current_rules names [] Hc Hh Hid)
    as (ids & Hids & Hnames & _).
  unfold Processor.reorder_rules, Processor.reorder_rules_run.
  rewrite Hids, Hc. unfold ebind, lift.
  rewrite (desired_present_all ids original_rules names Ho Hh Hnames).
  destruct fuel; cbn [Processor.reorder_loop];
    rewrite (list_eq_refl names Hh); reflexivity.
Qed.

Lemma reorder_rules_in_order_is_noop_witness :
  Processor.reorder_rules listing_down 0 SecurityRule
    "/sse/config/v1/security-rules" "Mobile Users"
    [[("name", VStr "A")]; [("name", VStr "B")]; [("name", VStr "C")]]
    rules_ABC "10000" "pre" (start rules_ABC)
  = (Ok VNone, start rules_ABC).
Proof.
  apply (reorder_rules_in_order_is_noop listing_down 0 SecurityRule
           "/sse/config/v1/security-rules" "Mobile Users"
           [[("name", VStr "A")]; [("name", VStr "B")]; [("name", VStr "C")]]
           rules_ABC "10000" "pre" [VStr "A"; VStr "B"; VStr "C"]);
    try reflexivity; repeat constructor.
Defined.

(** ** Fetching the current state *)

Section FetchFacts.

Context {R : Type}.
Variable api_handler : gateway R.
Variable folder_scope : string.







(** X18.  [fetch_rules] keeps the records that have a [name] and a
    [folder], so the reads that [process_security_rules] goes on with cannot
    fail for a missing key: the folder filter returns, with rules of the
    scope only, and so does the list of their names. *)
Theorem fetch_rules_guards_reads (obj_type : Diff.obj_type)
  (limit position : string) (w w' : world R) (rules : list record) :
  SCMObjectManager.fetch_rules api_handler folder_scope obj_type limit
    position w = (Ok rules, w') ->
  exists kept names,
    Processor.scoped folder_scope rules = Ok kept
    /\ Processor.names_of kept = Ok names
    /\ Forall (fun r => item r "folder" = Ok (VStr folder_scope)) kept.
Proof.
  unfold SCMObjectManager.fetch_rules. intro H.
  apply ebind_Ok in H as (all_objects & w1 & _ & H).
  unfold ret in H. injection H as <- _.
  induction all_objects as [|o rest IH].
  - exists [], []. repeat split. constructor.
  - cbn [filter]. unfold dict_has at 1 2.
    destruct (dict_get "name" o) as [n|] eqn:En; [|exact IH].
    destruct (dict_get "folder" o) as [f|] eqn:Ef; [|exact IH].
    cbn [andb]. destruct IH as (kept & names & Hk & Hn & Hall).
    cbn [Processor.scoped]. unfold item at 1, subscript. rewrite Ef.
    cbn [bind]. rewrite Hk. cbn [bind].
    destruct (py_eq f (VStr folder_scope)) eqn:Eq.
    + exists (o :: kept), (n :: names). split; [reflexivity|].
      cbn [Processor.names_of]. unfold item at 1, subscript. rewrite En.
      cbn [bind]. rewrite Hn. split; [reflexivity|].
      constructor; [|exact Hall].
      apply py_eq_VStr in Eq. subst f.
      unfold item, subscript. now rewrite Ef.
    + now exists kept, names.
Qed.

End FetchFacts.

Lemma fetch_rules_guards_reads_witness :
  SCMObjectManager.fetch_rules OrderedRemote.handler "Mobile Users"
    SecurityRule "10000" "pre"
    (start ([("id", VStr "9"); ("name", VStr "stray")] :: shared_web
            :: rules_ABC))
  = (Ok (shared_web :: rules_ABC),
     start ([("id", VStr "9"); ("name", VStr "stray")] :: shared_web
            :: rules_ABC))
  /\ exists kept names,
       Processor.scoped "Mobile Users" (shared_web :: rules_ABC) = Ok kept
       /\ Processor.names_of kept = Ok names
       /\ Forall (fun r => item r "folder" = Ok (VStr "Mobile Users")) kept.
Proof.
  assert (H : SCMObjectManager.fetch_rules OrderedRemote.handler
                "Mobile Users" SecurityRule "10000" "pre"
                (start ([("id", VStr "9"); ("name", VStr "stray")]
                        :: shared_web :: rules_ABC))
              = (Ok (shared_web :: rules_ABC),
                 start ([("id", VStr "9"); ("name", VStr "stray")]
                        :: shared_web :: rules_ABC))) by reflexivity.
  split; [exact H|].
  exact (fetch_rules_guards_reads OrderedRemote.handler "Mobile Users"
           SecurityRule "10000" "pre" _ _ _ H).
Defined.

Lemma scoped_missing_folder (folder_scope : string) (all_rules : list record) :
  (exists r, In r all_rules /\ dict_has "folder" r = false) ->
  Processor.scoped folder_scope all_rules = Raise KeyError.
Proof.
  induction all_rules as [|r0 rest IH]; intros (r & Hin & Hr);
    [destruct Hin|].
  cbn [Processor.scoped]. unfold item at 1, subscript.
  destruct (dict_get "folder" r0) as [f|] eqn:Ef; [|reflexivity].
  cbn [bind]. rewrite IH; [reflexivity|].
  destruct Hin as [->|Hin]; [|now exists r].
  unfold dict_has in Hr. rewrite Ef in Hr. discriminate.
Qed.

(** X19.  [check_and_reorder_rules] reads the [folder] of every record that
    [get] returns, of its scope or not: one record without that key makes it
    raise [KeyError] right after the fetch, before any rule is moved. *)
Theorem check_and_reorder_rules_needs_folder {R : Type}
  (api_handler : gateway R) (fuel fuel_in : nat) (obj_type : Diff.obj_type)
  (folder_scope : string) (original_rules all_rules : list record)
  (limit position e : string) (w : world R) (s : R) :
  Diff.get_endpoint obj_type = Ok e ->
  api_get api_handler (Some e) folder_scope limit position (remote w)
    = (inr all_rules, s) ->
  (exists r, In r all_rules /\ dict_has "folder" r = false) ->
  Processor.check_and_reorder_rules api_handler (S fuel) fuel_in obj_type
    folder_scope original_rules limit position w
  = (Raise KeyError, World s (log w) (max_workers w)).
Proof.
  intros He Hget Hbad.
  unfold Processor.check_and_reorder_rules.
  cbn [Processor.check_loop negb]. rewrite He.
  unfold ebind, lift, get. rewrite Hget. cbn [of_call].
  now rewrite (scoped_missing_folder folder_scope all_rules Hbad).
Qed.

Lemma check_and_reorder_rules_needs_folder_witness :
  Processor.check_and_reorder_rules OrderedRemote.handler 1 8 SecurityRule
    "Mobile Users" desired_CAB "10000" "pre"
    (start (rules_ABC ++ [[("id", VStr "9"); ("name", VStr "stray")]]))
  = (Raise KeyError,
     start (rules_ABC ++ [[("id", VStr "9"); ("name", VStr "stray")]])).
Proof.
  apply (check_and_reorder_rules_needs_folder OrderedRemote.handler 0 8
           SecurityRule "Mobile Users" desired_CAB
           (rules_ABC ++ [[("id", VStr "9"); ("name", VStr "stray")]])
           "10000" "pre" "/sse/config/v1/security-rules?"
           (start (rules_ABC ++ [[("id", VStr "9"); ("name", VStr "stray")]])));
    [reflexivity|reflexivity|].
  exists [("id", VStr "9"); ("name", VStr "stray")].
  split; [|reflexivity]. right. right. right. now left.
Defined.

(** ** Shape of the classification *)

Lemma dict_set_keys {A : Type} (k : string) (v : A) (d : list (string * A)) :
  map fst (dict_set k v d)
  = if dict_has k d then map fst d else map fst d ++ [k].
Proof.
  unfold dict_has. induction d as [|[k' v'] rest IH]; [reflexivity|].
  cbn. destruct (String.eqb k k') eqn:E.
  - apply String.eqb_eq in E. now subst.
  - cbn. rewrite IH. now destruct (dict_get k rest).
Qed.

Lemma dict_set_values {A : Type} (P : A -> Prop) (k : string) (v : A)
  (d : list (string * A)) :
  P v -> Forall (fun kv => P (snd kv)) d ->
  Forall (fun kv => P (snd kv)) (dict_set k v d).
Proof.
  intros Hv. induction 1 as [|[k' v'] rest Hkv Hrest IH]; cbn.
  - now repeat constructor.
  - destruct (String.eqb k k'); constructor; cbn [snd] in *; auto.
Qed.

Lemma distinct_keys_iff {A : Type} (d : list (string * A)) :
  distinct_keys d = true <-> NoDup (map fst d).
Proof.
  split; [apply distinct_keys_NoDup|].
  induction d as [|[k v] rest IH]; intro H; [reflexivity|].
  cbn in *. inversion H as [|? ? Hk Hrest]; subst.
  rewrite IH by assumption. rewrite andb_true_r. apply negb_true_iff.
  unfold dict_has. destruct (dict_get k rest) as [x|] eqn:E; [|reflexivity].
  exfalso. apply Hk. clear -E.
  induction rest as [|[k' v'] rest IH]; [discriminate|].
  cbn in *. destruct (String.eqb k k') eqn:E'.
  - apply String.eqb_eq in E'. now left.
  - right. now apply IH.
Qed.

Lemma setdefault_append_tidy (names : list string) (T : string) (x : value)
  (d : Diff.entries) :
  In T names -> tidy names d -> tidy names (setdefault_append T x d).
Proof.
  intros HT (Hnd & Hne & Hin). unfold setdefault_append.
  assert (Hkeys : forall l,
            map fst (dict_set T l d)
            = if dict_has T d then map fst d else map fst d ++ [T])
    by (intro l; apply dict_set_keys).
  assert (Htidy : forall l, l <> [] -> tidy names (dict_set T l d)).
  { intros l Hl. unfold tidy. rewrite Hkeys. split; [|split].
    - destruct (dict_has T d) eqn:E; [exact Hnd|].
      apply NoDup_app_remove_l with (l := []). cbn.
      apply Permutation_NoDup with (l := T :: map fst d).
      + apply Permutation_cons_append.
      + constructor; [now apply dict_has_In|exact Hnd].
    - apply (dict_set_values (fun l => l <> [])); assumption.
    - intros k Hk. destruct (dict_has T d); [now apply Hin|].
      apply in_app_or in Hk as [Hk|[<-|[]]]; [now apply Hin|exact HT]. }
  destruct (dict_get T d) as [l|]; apply Htidy.
  - now destruct l.
  - discriminate.
Qed.

Lemma classify_entries_tidy (names : list string) (T : string)
  (current_set current_names parsed : list value) :
  In T names ->
  forall new_entries updated_entries n u,
    tidy names new_entries -> tidy names updated_entries ->
    Diff.classify_entries T current_set current_names parsed new_entries
      updated_entries = Ok (n, u) ->
    tidy names n /\ tidy names u.
Proof.
  intro HT. induction parsed as [|p rest IH];
    intros new_entries updated_entries n u Hn Hu H.
  - injection H as <- <-. now split.
  - cbn [Diff.classify_entries] in H.
    destruct (subscript p "name") as [name| |]; try discriminate.
    cbn [bind] in H.
    destruct (hashed name) as [name'| |]; try discriminate.
    cbn [bind] in H.
    destruct (negb (mem name' current_names)).
    + apply IH in H; [exact H| |exact Hu].
      now apply setdefault_append_tidy.
    + destruct (Diff.next_named name' current_set) as [o| |];
        try discriminate.
      cbn [bind] in H.
      destruct (py_get o "id") as [id| |]; try discriminate.
      cbn [bind] in H.
      destruct p as [| | | | |d]; try discriminate.
      destruct (Diff.needs_update (dict_set "id" id d) o) as [[|]| |];
        try discriminate; cbn [bind] in H; apply IH in H; try assumption.
      now apply setdefault_append_tidy.
Qed.

(** X20.  In what [get_new_and_updated_entries] returns, each key is the
    name of one of the current object types, no key comes twice, and no list
    is empty: a type with nothing new, or nothing to update, has no key. *)
Theorem classification_has_no_empty_list
  (parsed_data : list (string * list value))
  (current_objects : list (Diff.obj_type * list value))
  (new_entries updated_entries : Diff.entries) :
  Diff.get_new_and_updated_entries parsed_data current_objects
    = Ok (new_entries, updated_entries) ->
  let names := map (fun tc => Diff.type_name (fst tc)) current_objects in
  (NoDup (map fst new_entries)
   /\ Forall (fun kv => snd kv <> []) new_entries
   /\ forall k, In k (map fst new_entries) -> In k names)
  /\ (NoDup (map fst updated_entries)
      /\ Forall (fun kv => snd kv <> []) updated_entries
      /\ forall k, In k (map fst updated_entries) -> In k names).
Proof.
  intros H names. unfold Diff.get_new_and_updated_entries in H.
  change (tidy names new_entries /\ tidy names updated_entries).
  assert (Hgen : forall objs n0 u0 n u,
            (forall tc, In tc objs -> In (Diff.type_name (fst tc)) names) ->
            tidy names n0 -> tidy names u0 ->
            Diff.classify_types parsed_data objs n0 u0 = Ok (n, u) ->
            tidy names n /\ tidy names u).
  { induction objs as [|[t cs] rest IH]; intros n0 u0 n u Hsub Hn Hu Hrun.
    - injection Hrun as <- <-. now split.
    - cbn [Diff.classify_types] in Hrun.
      assert (Hrest : forall tc, In tc rest ->
                                 In (Diff.type_name (fst tc)) names)
        by (intros tc Htc; apply Hsub; now right).
      destruct (dict_get _ parsed_data) as [parsed|];
        [|now apply (IH n0 u0)].
      destruct (Diff.current_names_of cs) as [cn| |]; try discriminate.
      cbn [bind] in Hrun.
      destruct (Diff.classify_entries (Diff.type_name t) cs cn parsed n0 u0)
        as [[n1 u1]| |] eqn:Hc; try discriminate.
      cbn [bind] in Hrun.
      apply (classify_entries_tidy names) in Hc as [Hn1 Hu1]; try assumption.
      + now apply (IH n1 u1).
      + apply (Hsub (t, cs)). now left. }
  apply (Hgen current_objects [] [] new_entries updated_entries);
    try assumption.
  - intros tc Htc. unfold names. apply in_map_iff. now exists tc.
  - repeat split; [constructor|constructor|intros k []].
  - repeat split; [constructor|constructor|intros k []].
Qed.

Lemma classification_has_no_empty_list_witness :
  Diff.get_new_and_updated_entries [("Address", parsed_addresses)]
    [(Address, current_addresses)]
  = Ok ([("Address",
          [VDict [("name", VStr "dns"); ("ip_netmask", VStr "10.0.0.3/32")]])],
        [("Address",
          [VDict [("name", VStr "db"); ("ip_netmask", VStr "10.0.0.2/32");
                  ("id", VStr "8")]])])
  /\ Forall (fun kv : string * list value => snd kv <> [])
       [("Address",
         [VDict [("name", VStr "dns"); ("ip_netmask", VStr "10.0.0.3/32")]])].
Proof.
  assert (H : Diff.get_new_and_updated_entries
                [("Address", parsed_addresses)] [(Address, current_addresses)]
              = Ok ([("Address",
                      [VDict [("name", VStr "dns");
                              ("ip_netmask", VStr "10.0.0.3/32")]])],
                    [("Address",
                      [VDict [("name", VStr "db");
                              ("ip_netmask", VStr "10.0.0.2/32");
                              ("id", VStr "8")]])])) by reflexivity.
  split; [exact H|].
  exact (proj1 (proj2 (proj1 (classification_has_no_empty_list _ _ _ _ H)))).
Defined.

(** ** Updates *)

Lemma dict_get_In_inv {A : Type} (d : list (string * A)) (k : string) (x : A) :
  dict_get k d = Some x -> In (k, x) d.
Proof.
  induction d as [|[k' x'] rest IH]; [discriminate|].
  cbn. destruct (String.eqb k k') eqn:E.
  - apply String.eqb_eq in E. intro H. injection H as ->. subst. now left.
  - intro H. right. now apply IH.
Qed.

Section UpdateFacts.

Context {R : Type}.
Variable api_handler : gateway R.
Variable api_put : string -> record -> R -> (exn + record) * R.
Variables (folder_scope : string) (obj_types obj : list Diff.obj_type).

Hypothesis put_answers :
  forall endpoint data s,
    exists r s', api_put endpoint data s = (inr r, s') /\ readable r.

Lemma update_entries_puts (entry_class : Diff.obj_type) (e : string)
  (entries : list value) :
  Diff.type_endpoint entry_class = Some e ->
  Forall updatable entries ->
  forall w : world R,
    SCMObjects.update_entries api_put entry_class entries w
    = (Ok tt,
       World (run_puts api_put (flat_map (update_call entry_class) entries)
                (remote w))
         (log w) (max_workers w)).
Proof.
  intros He. induction 1 as [|entry rest (d & n & -> & Hn & Hid) _ IH];
    intro w.
  - cbn. now destruct w.
  - cbn [SCMObjects.update_entries flat_map].
    unfold update_call at 1. rewrite He.
    unfold ebind at 1. unfold lift at 1. unfold py_get.
    change (match dict_get "id" d with
            | Some x => Ok x
            | None => Ok VNone
            end) with
      (match dict_get "id" d with
       | Some x => @Ok value x
       | None => Ok VNone
       end).
    assert (Hget : match dict_get "id" d with
                   | Some x => Ok x
                   | None => Ok VNone
                   end = Ok (existing d "id")).
    { unfold existing. now destruct (dict_get "id" d). }
    rewrite Hget.
    assert (Hname : lift (subscript (VDict d) "name") = @lift R _ (Ok n)).
    { unfold subscript. now rewrite Hn. }
    destruct Hid as [Hfalse|(id & Hstr)].
    + rewrite Hfalse. cbn [negb]. rewrite Hname.
      unfold ebind at 1. unfold lift at 1. rewrite IH.
      destruct (existing d "id") as [| | |id| |]; try reflexivity.
      now rewrite Hfalse.
    + rewrite Hstr. destruct (py_truthy (VStr id)) eqn:Ht; cbn [negb].
      * unfold Diff.get_endpoint. rewrite He.
        unfold ebind at 1. unfold lift at 1.
        unfold ebind at 1. unfold lift at 1. cbn [SCMObjects.str_operand].
        rewrite Hname.
        unfold ebind at 1. unfold lift at 1.
        unfold ebind at 1. unfold SCMObjects.put at 1.
        destruct (put_answers (str_replace "?" "" e ++ "/" ++ id)%string d
                    (remote w)) as (r & s' & Hput & status & Hs & Hm).
        rewrite Hput. cbn [of_call].
        unfold ebind at 1. unfold lift at 1. unfold item at 1, subscript.
        rewrite Hs.
        unfold ebind at 1.
        assert (Hlog :
          (if py_eq status (VStr "success")
           then _ <~ @lift R _ (Ok n) ;; ret tt
           else _ <~ @lift R _ (Ok n) ;; _ <~ lift (item r "message") ;; ret tt)
            (World s' (log w) (max_workers w))
          = (Ok tt, World s' (log w) (max_workers w))).
        { destruct Hm as [->|Hm]; [reflexivity|].
          destruct (py_eq status (VStr "success")); [reflexivity|].
          unfold ebind, lift, item, subscript, dict_has in *.
          destruct (dict_get "message" r); [reflexivity|discriminate]. }
        rewrite Hlog, IH. cbn [remote log max_workers].
        unfold run_puts. cbn [app fold_left fst snd]. now rewrite Hput.
      * rewrite Hname. unfold ebind at 1. unfold lift at 1. now rewrite IH.
Qed.

(** X21.  When [put] answers with a status (and a message unless the status
    is "success"), the queued entries are dicts with a name and the types
    are classes of the module with an endpoint, [update_existing_entries]
    returns, having made, in the order of the object types and then of the
    entries, one [put] for each entry whose id holds, at the endpoint
    without its [?] followed by [/] and the id; an entry without an id is
    passed over, a failed update does not stop the next one, and a type that
    is not among the object types is never updated. *)
Theorem update_existing_entries_puts (updated_entries : Diff.entries)
  (scope device_group_name : string) (w : world R) :
  Forall (fun t =>
            SCMObjects.getattr obj (Diff.type_name t) = Ok t
            /\ Diff.type_endpoint t <> None) obj_types ->
  Forall (fun kv => Forall updatable (snd kv)) updated_entries ->
  SCMObjects.update_existing_entries api_put obj_types obj updated_entries
    scope device_group_name w
  = (Ok tt,
     World (run_puts api_put (planned_puts obj_types updated_entries)
              (remote w))
       (log w) (max_workers w)).
Proof.
  intros Hobj Hent. unfold SCMObjects.update_existing_entries. revert w.
  induction Hobj as [|t rest (Hget & He) _ IH]; intro w.
  - cbn. now destruct w.
  - cbn [SCMObjects.update_types planned_puts].
    destruct (Diff.type_endpoint t) as [e|] eqn:Ee; [|congruence].
    destruct (dict_get (Diff.type_name t) updated_entries) as [entries|] eqn:Ed.
    + assert (Hup : Forall updatable entries).
      { apply dict_get_In_inv in Ed. rewrite Forall_forall in Hent.
        exact (Hent _ Ed). }
      destruct entries as [|entry entries'].
      * unfold ebind at 1. unfold ret at 1. now rewrite IH.
      * rewrite Hget.
        unfold ebind at 1. unfold ebind at 1. unfold lift at 1.
        rewrite (update_entries_puts t e (entry :: entries') Ee Hup).
        rewrite IH. cbn [remote log max_workers].
        unfold run_puts. now rewrite fold_left_app.
    + unfold ebind at 1. unfold ret at 1. now rewrite IH.
Qed.

End UpdateFacts.

Lemma storing_put_readable (endpoint : string) (data : record)
  (s : list record) :
  exists r s', StoringRemote.put endpoint data s = (inr r, s') /\ readable r.
Proof.
  unfold StoringRemote.put.
  destruct (existsb _ s); eexists; eexists; (split; [reflexivity|]).
  - exists (VStr "success"). split; [reflexivity|now left].
  - exists (VStr "error"). split; [reflexivity|now right].
Qed.

Lemma update_existing_entries_puts_witness :
  SCMObjects.update_existing_entries StoringRemote.put [Obj.Address]
    Obj.classes updated_addresses "Mobile Users" ""
    (start (SCMObjects.dicts_of current_addresses))
  = (Ok tt,
     World
       (run_puts StoringRemote.put
          (planned_puts [Obj.Address] updated_addresses)
          (SCMObjects.dicts_of current_addresses))
       [] 4)
  /\ planned_puts [Obj.Address] updated_addresses
     = [("/sse/config/v1/addresses/8",
         [("name", VStr "db"); ("ip_netmask", VStr "10.0.0.2/32");
          ("id", VStr "8")]);
        ("/sse/config/v1/addresses/7",
         [("name", VStr "web"); ("ip_netmask", VStr "10.0.0.4/32");
          ("id", VStr "7")])].
Proof.
  split; [|reflexivity].
  apply (update_existing_entries_puts StoringRemote.put [Obj.Address]
           Obj.classes storing_put_readable updated_addresses "Mobile Users" ""
           (start (SCMObjects.dicts_of current_addresses))).
  - repeat constructor. discriminate.
  - repeat constructor; eexists; eexists;
      (split; [reflexivity|split; [reflexivity|]]);
      first [left; reflexivity|right; eexists; reflexivity].
Defined.

(** ** Creation of the new entries *)

Section NewEntriesFacts.

Context {R : Type}.
Variable api_handler : gateway R.
Variables (obj_types obj : list Diff.obj_type).

(** X22.  [post_new_entries] reads the new entries through the names of
    the object types only and creates in the order of these types: two dicts
    that hold the same list for each of these names give the same run, so
    the order of the keys plays no part and a key that names no object type
    is never created. *)
Theorem post_new_entries_by_type_name
  (entries1 entries2 : list (string * list record))
  (scope device_group_name : string) (w : world R) :
  (forall t, In t obj_types ->
     dict_get (Diff.type_name t) entries1
     = dict_get (Diff.type_name t) entries2) ->
  SCMObjects.post_new_entries api_handler obj_types obj entries1 scope
    device_group_name w
  = SCMObjects.post_new_entries api_handler obj_types obj entries2 scope
      device_group_name w.
Proof.
  unfold SCMObjects.post_new_entries. revert w.
  induction obj_types as [|t rest IH]; intros w Hsame; [reflexivity|].
  cbn [SCMObjects.post_new_types].
  rewrite (Hsame t) by now left.
  apply ebind_cong; [reflexivity|intros u w1 _].
  apply IH. intros t' Ht'. apply Hsame. now right.
Qed.

End NewEntriesFacts.

Lemma post_new_entries_by_type_name_witness :
  SCMObjects.post_new_entries StoringRemote.handler [Obj.Address; Obj.Tag]
    Obj.classes
    [("Tag", [[("name", VStr "dmz")]]); ("Region", [[("name", VStr "eu")]]);
     ("Address", [[("name", VStr "web")]])]
    "Mobile Users" "" (start [])
  = SCMObjects.post_new_entries StoringRemote.handler [Obj.Address; Obj.Tag]
      Obj.classes
      [("Address", [[("name", VStr "web")]]); ("Tag", [[("name", VStr "dmz")]])]
      "Mobile Users" "" (start []).
Proof.
  apply (post_new_entries_by_type_name StoringRemote.handler
           [Obj.Address; Obj.Tag] Obj.classes).
  intros t [<-|[<-|[]]]; reflexivity.
Defined.

(** ** A desired state that is already there *)

Lemma needs_update_same (new_object current : record) (n : value) :
  dict_get "name" new_object = Some n ->
  (forall k v, In (k, v) new_object -> k <> "name" ->
     existing current k = v /\ proper v = true) ->
  Diff.needs_update new_object (VDict current) = Ok false.
Proof.
  intros Hname Hsame. unfold Diff.needs_update.
  rewrite (needs_update_with_spec _ new_object current n Hname).
  destruct current as [|c current']; [reflexivity|].
  destruct (existsb _ new_object) eqn:E; [|reflexivity].
  apply existsb_exists in E as ([k v] & Hin & Hchanged).
  unfold field_changed in Hchanged. cbn [fst snd] in Hchanged.
  apply andb_true_iff in Hchanged as [Hk Hd].
  apply negb_true_iff, String.eqb_neq in Hk.
  destruct (Hsame k v Hin Hk) as [Hget Hp].
  rewrite Hget, (deep_compare_refl v Hp) in Hd. discriminate.
Qed.

Lemma dict_set_In {A : Type} (k : string) (v : A) (d : list (string * A))
  (k' : string) (x : A) :
  distinct_keys d = true ->
  In (k', x) (dict_set k v d) -> (k' = k /\ x = v) \/ (In (k', x) d /\ k' <> k).
Proof.
  induction d as [|[k0 v0] rest IH]; cbn; intro Hd.
  - intros [H|[]]. injection H as <- <-. now left.
  - apply andb_true_iff in Hd as [Hk0 Hrest].
    apply negb_true_iff in Hk0.
    destruct (String.eqb k k0) eqn:E.
    + apply String.eqb_eq in E. subst k0.
      intros [H|H]; [injection H as <- <-; now left|].
      right. split; [now right|]. intros ->.
      apply (dict_has_In rest k Hk0). apply in_map_iff. now exists (k, x).
    + apply String.eqb_neq in E. intros [H|H].
      * injection H as <- <-. right. split; [now left|congruence].
      * destruct (IH Hrest H) as [Hl|[Hin Hne]]; [now left|].
        right. split; [now right|exact Hne].
Qed.

Lemma filter_none {A : Type} (f : A -> bool) (l : list A) :
  Forall (fun x => f x = false) l -> filter f l = [].
Proof.
  induction 1 as [|x rest Hx _ IH]; [reflexivity|].
  cbn. now rewrite Hx.
Qed.

(** X23.  When every desired record of a type has a current record of its
    name, and the first such record holds each of its fields, [name] and
    [id] aside, with the same value, nothing is new and nothing needs an
    update: [get_new_and_updated_entries] returns two empty dicts. *)
Theorem classification_of_settled_state (t : Diff.obj_type)
  (parsed_data : list (string * list value)) (parsed current : list value) :
  dict_get (Diff._generate_key_name (Diff.type_name t)) parsed_data
    = Some parsed ->
  Forall Classify.is_record current ->
  Forall (fun p =>
            Classify.is_record p /\ proper p = true
            /\ exists d c,
                 p = VDict d
                 /\ Classify.matched current p = Some (VDict c)
                 /\ proper (existing c "id") = true
                 /\ forall k v, In (k, v) d -> k <> "name" -> k <> "id" ->
                      existing c k = v) parsed ->
  Diff.get_new_and_updated_entries parsed_data [(t, current)] = Ok ([], []).
Proof.
  intros Hkey Hcur Hparsed.
  assert (Hrec : Forall Classify.is_record parsed).
  { apply Forall_forall. intros p Hp. rewrite Forall_forall in Hparsed.
    now destruct (Hparsed p Hp). }
  unfold Diff.get_new_and_updated_entries. cbn [Diff.classify_types].
  rewrite Hkey, (current_names_of_spec current Hcur). cbn [bind].
  rewrite (classify_entries_spec current _ parsed Hcur Hrec). cbn [bind].
  assert (Hnew : filter (Classify.is_new current) parsed = []).
  { apply filter_none. apply Forall_forall. intros p Hp.
    rewrite Forall_forall in Hparsed.
    destruct (Hparsed p Hp)
      as ((d0 & n & Hd0 & Hn & Hh) & _ & d & c & -> & Hm & _).
    injection Hd0 as <-.
    unfold Classify.is_new, Classify.named_in. apply negb_false_iff.
    unfold Classify.matched in Hm. apply find_some in Hm as [Hin Heq].
    apply existsb_exists. exists (VDict c). split; [exact Hin|].
    rewrite Forall_forall in Hcur.
    destruct (Hcur _ Hin) as (c0 & m & Hc0 & Hm0 & Hhm).
    injection Hc0 as <-.
    rewrite py_eq_sym_hashable; [exact Heq| |];
      unfold Classify.vname, existing; [now rewrite Hn|now rewrite Hm0]. }
  assert (Hupd : filter (Classify.is_updated current) parsed = []).
  { apply filter_none. apply Forall_forall. intros p Hp.
    rewrite Forall_forall in Hparsed.
    destruct (Hparsed p Hp)
      as ((d0 & n & Hd0 & Hn & Hh) & Hproper & d & c & -> & Hm & Hid & Hsame).
    injection Hd0 as <-.
    apply proper_dict in Hproper as [Hkeys Hvals].
    unfold Classify.is_updated. apply andb_false_iff. right.
    unfold Classify.changed, Classify.attach. rewrite Hm.
    rewrite (needs_update_same _ c n); [reflexivity| |].
    - rewrite dict_get_set_other by discriminate. exact Hn.
    - intros k v Hin Hk.
      destruct (dict_set_In _ _ _ _ _ Hkeys Hin) as [[-> ->]|[Hin' Hne]].
      + now split.
      + split; [now apply Hsame|].
        rewrite Forall_forall in Hvals. exact (Hvals (k, v) Hin'). }
  now rewrite Hnew, Hupd.
Qed.

Lemma classification_of_settled_state_witness :
  Diff.get_new_and_updated_entries [("Address", settled_addresses)]
    [(Address, current_addresses)] = Ok ([], []).
Proof.
  apply (classification_of_settled_state Address
           [("Address", settled_addresses)] settled_addresses
           current_addresses eq_refl).
  - repeat constructor; eexists; eexists; repeat split; reflexivity.
  - repeat constructor;
      try (eexists; eexists; repeat split; reflexivity);
      eexists; eexists; (split; [reflexivity|]);
      (split; [reflexivity|]); (split; [reflexivity|]);
      intros k v [H|[H|[]]] Hk Hi; injection H as <- <-;
      first [congruence|reflexivity].
Defined.

(** ** The object pipeline *)

Section PipelineFacts.

Context {R : Type}.
Variable api_handler : gateway R.
Variable api_put : string -> record -> R -> (exn + record) * R.
Variables (folder_scope : string) (obj_types obj : list Diff.obj_type).

Lemma update_types_nothing (types : list Diff.obj_type) (w : world R) :
  SCMObjects.update_types api_put obj types [] w = (Ok tt, w).
Proof.
  induction types as [|t rest IH]; [reflexivity|].
  cbn [SCMObjects.update_types dict_get]. unfold ebind, ret. exact IH.
Qed.

(** X24.  When the fetch returns and the classification of the parsed data
    against what was fetched is empty on both sides, [process_objects] ends
    there: it makes no creation and no update call, and leaves the world as
    the fetch left it. *)
Theorem process_objects_nothing_to_do
  (parsed_data : list (string * list value))
  (scope device_group_name : string) (workers : nat) (limit : string)
  (current_objects : list (Diff.obj_type * list record)) (w w1 : world R) :
  SCMObjects.get_current_objects api_handler folder_scope obj_types workers
    limit w = (Ok current_objects, w1) ->
  Diff.get_new_and_updated_entries parsed_data
    (map (fun '(t, data) => (t, map VDict data)) current_objects)
    = Ok ([], []) ->
  SCMObjects.process_objects api_handler api_put folder_scope obj_types obj
    parsed_data scope device_group_name workers limit w
  = (Ok tt, w1).
Proof.
  intros Hfetch Hclass. unfold SCMObjects.process_objects.
  unfold ebind at 1. rewrite Hfetch.
  unfold ebind at 1. unfold lift at 1. rewrite Hclass.
  cbn [existsb]. unfold ebind at 1. unfold ret at 1.
  unfold SCMObjects.update_existing_entries. apply update_types_nothing.
Qed.

End PipelineFacts.

Lemma process_objects_nothing_to_do_witness :
  SCMObjects.process_objects StoringRemote.handler StoringRemote.put
    "Mobile Users" [Obj.Address] Obj.classes
    [("Address", settled_addresses)] "Mobile Users" "" 6 "10000"
    (start (SCMObjects.dicts_of current_addresses))
  = (Ok tt,
     World (SCMObjects.dicts_of current_addresses) [EvWorkers 6] 4).
Proof.
  apply (process_objects_nothing_to_do StoringRemote.handler StoringRemote.put
           "Mobile Users" [Obj.Address] Obj.classes
           [("Address", settled_addresses)] "Mobile Users" "" 6 "10000"
           [(Obj.Address, SCMObjects.dicts_of current_addresses)]);
    reflexivity.
Defined.

(** ** Security rules that are already there, in order *)

Lemma name_set_of_names (rules : list record) (names : list value) :
  Processor.names_of rules = Ok names ->
  Forall (fun v => hashable v = true) names ->
  SCMObjectManager.name_set rules = Ok names.
Proof.
  revert names. induction rules as [|r rest IH]; intros names Hn Hh.
  - exact Hn.
  - cbn [Processor.names_of] in Hn. cbn [SCMObjectManager.name_set].
    destruct (item r "name") as [name| |]; try discriminate.
    cbn [bind] in *.
    destruct (Processor.names_of rest) as [names'| |]; try discriminate.
    cbn [bind] in Hn. injection Hn as <-.
    inversion Hh as [|? ? Hname Hh']; subst.
    unfold hashed. rewrite Hname. cbn [bind].
    now rewrite (IH names' eq_refl Hh').
Qed.

Lemma rules_to_create_none (current_names : list value) (entries : list record) :
  forall names,
    Processor.names_of entries = Ok names ->
    Forall (fun v => hashable v = true) names ->
    (forall n, In n names -> mem n current_names = true) ->
    SCMObjectManager.rules_to_create current_names entries = Ok [].
Proof.
  induction entries as [|r rest IH]; intros names Hn Hh Hin; [reflexivity|].
  cbn [Processor.names_of] in Hn. cbn [SCMObjectManager.rules_to_create].
  destruct (item r "name") as [name| |]; try discriminate.
  cbn [bind] in *.
  destruct (Processor.names_of rest) as [names'| |]; try discriminate.
  cbn [bind] in Hn. injection Hn as <-.
  inversion Hh as [|? ? Hname Hh']; subst.
  unfold hashed. rewrite Hname. cbn [bind].
  rewrite (IH names' eq_refl Hh') by (intros n Hn; apply Hin; now right).
  cbn [bind]. rewrite (Hin name) by now left. reflexivity.
Qed.

Lemma mem_self (names : list value) :
  Forall (fun v => hashable v = true) names ->
  forall n, In n names -> mem n names = true.
Proof.
  intros Hh n Hin. unfold mem. apply existsb_exists. exists n.
  split; [exact Hin|]. apply py_eq_refl_hashable.
  rewrite Forall_forall in Hh. now apply Hh.
Qed.

Section SettledRules.

Context {R : Type}.
Variable api_handler : gateway R.
Variable folder_scope : string.

(** X25.  When, for the pre and for the post rulebase, the fetched rules of
    the scope carry exactly the names of the desired rules, in the same
    order, [process_security_rules] fetches twice and stops: it creates no
    rule, moves none, and writes its two "nothing new" lines. *)
Theorem process_security_rules_settled (fuel fuel_in : nat)
  (sec_obj : Diff.obj_type) (parsed_data : list (string * list record))
  (xml_file_path limit : string)
  (pre_rules post_rules current_pre current_post pre_entries post_entries
     : list record)
  (names_pre names_post : list value) (w w1 w2 : world R) :
  SCMObjectManager.fetch_rules api_handler folder_scope sec_obj limit "pre" w
    = (Ok pre_rules, w1) ->
  SCMObjectManager.fetch_rules api_handler folder_scope sec_obj limit "post"
    w1 = (Ok post_rules, w2) ->
  Processor.scoped folder_scope pre_rules = Ok current_pre ->
  Processor.scoped folder_scope post_rules = Ok current_post ->
  dict_get "security_pre_rules" parsed_data = Some pre_entries ->
  dict_get "security_post_rules" parsed_data = Some post_entries ->
  Processor.names_of current_pre = Ok names_pre ->
  Processor.names_of pre_entries = Ok names_pre ->
  Processor.names_of current_post = Ok names_post ->
  Processor.names_of post_entries = Ok names_post ->
  Forall (fun v => hashable v = true) (names_pre ++ names_post) ->
  SCMObjectManager.process_security_rules api_handler folder_scope fuel
    fuel_in sec_obj parsed_data xml_file_path limit w
  = (Ok tt,
     World (remote w2)
       (log w2 ++ [EvNoNewRules "pre-rules" xml_file_path;
                   EvNoNewRules "post-rules" xml_file_path])
       (max_workers w2)).
Proof.
  intros Hf1 Hf2 Hs1 Hs2 Hk1 Hk2 Hc1 He1 Hc2 He2 Hh.
  apply Forall_app in Hh as [Hh1 Hh2].
  unfold SCMObjectManager.process_security_rules.
  unfold ebind at 1. rewrite Hf1.
  unfold ebind at 1. rewrite Hf2.
  rewrite Hs1, Hs2.
  unfold ebind at 1. unfold lift at 1.
  unfold ebind at 1. unfold lift at 1.
  rewrite (name_set_of_names current_pre names_pre Hc1 Hh1).
  rewrite (name_set_of_names current_post names_post Hc2 Hh2).
  unfold ebind at 1. unfold lift at 1.
  unfold ebind at 1. unfold lift at 1.
  unfold SCMObjectManager.parsed_item. rewrite Hk1, Hk2.
  unfold ebind at 1. unfold lift at 1.
  unfold ebind at 1. unfold lift at 1.
  rewrite (rules_to_create_none names_pre pre_entries names_pre He1 Hh1
             (mem_self names_pre Hh1)).
  rewrite (rules_to_create_none names_post post_entries names_post He2 Hh2
             (mem_self names_post Hh2)).
  unfold ebind at 1. unfold lift at 1.
  unfold ebind at 1. unfold lift at 1.
  cbn [SCMObjectManager.post_rule_types].
  unfold SCMObjectManager.reorder_rules_if_needed,
    RuleProcessor.is_rule_order_correct.
  rewrite Hc1, He1, Hc2, He2. cbn [bind].
  rewrite (list_eq_refl names_pre Hh1), (list_eq_refl names_post Hh2).
  unfold ebind, lift, logger, ret. cbn [negb remote log max_workers].
  now rewrite <- app_assoc.
Qed.

(** X26.  [reorder_rules] reads the id of every current rule before its
    loop: with a current rule that has no [id] (the names being hashable) it
    raises [KeyError] without a call to the remote or a line in the log. *)
Theorem reorder_rules_needs_ids (fuel : nat) (obj_type : Diff.obj_type)
  (endpoint : string) (original_rules current_rules : list record)
  (limit position : string) (names : list value) (w : world R) :
  Processor.names_of current_rules = Ok names ->
  Forall (fun v => hashable v = true) names ->
  (exists r, In r current_rules /\ dict_has "id" r = false) ->
  Processor.reorder_rules api_handler fuel obj_type endpoint folder_scope
    original_rules current_rules limit position w
  = (Raise KeyError, w).
Proof.
  intros Hn Hh Hbad.
  assert (Hids : forall acc, Processor.rule_ids current_rules acc
                             = Raise KeyError).
  { revert names Hn Hh Hbad.
    induction current_rules as [|r0 rest IH];
      intros names Hn Hh (r & Hin & Hr) acc; [destruct Hin|].
    cbn [Processor.names_of] in Hn. cbn [Processor.rule_ids].
    destruct (item r0 "name") as [name| |]; try discriminate.
    cbn [bind] in *.
    destruct (Processor.names_of rest) as [names'| |]; try discriminate.
    cbn [bind] in Hn. injection Hn as <-.
    inversion Hh as [|? ? Hname Hh']; subst.
    unfold item at 1, subscript.
    destruct (dict_get "id" r0) as [id|] eqn:Eid; [|reflexivity].
    cbn [bind]. unfold hashed. rewrite Hname. cbn [bind].
    apply (IH names' eq_refl Hh').
    destruct Hin as [->|Hin]; [|now exists r].
    unfold dict_has in Hr. rewrite Eid in Hr. discriminate. }
  unfold Processor.reorder_rules, Processor.reorder_rules_run.
  now rewrite Hids.
Qed.

End SettledRules.

Lemma process_security_rules_settled_witness :
  SCMObjectManager.process_security_rules OrderedRemote.handler
    "Mobile Users" 1 8 SecurityRule
    [("security_pre_rules", desired_ABC); ("security_post_rules", desired_ABC)]
    "policy.xml" "10000" (start (shared_web :: rules_ABC))
  = (Ok tt,
     World (shared_web :: rules_ABC)
       [EvNoNewRules "pre-rules" "policy.xml";
        EvNoNewRules "post-rules" "policy.xml"] 4).
Proof.
  apply (process_security_rules_settled OrderedRemote.handler "Mobile Users"
           1 8 SecurityRule
           [("security_pre_rules", desired_ABC);
            ("security_post_rules", desired_ABC)]
           "policy.xml" "10000"
           (shared_web :: rules_ABC) (shared_web :: rules_ABC)
           rules_ABC rules_ABC desired_ABC desired_ABC
           [VStr "A"; VStr "B"; VStr "C"] [VStr "A"; VStr "B"; VStr "C"]
           (start (shared_web :: rules_ABC)) (start (shared_web :: rules_ABC))
           (start (shared_web :: rules_ABC)));
    try reflexivity.
  repeat constructor.
Defined.

Lemma reorder_rules_needs_ids_witness :
  Processor.reorder_rules OrderedRemote.handler 8 SecurityRule
    "/sse/config/v1/security-rules" "Mobile Users" desired_CAB
    (rules_ABC ++ [[("name", VStr "D"); ("folder", VStr "Mobile Users")]])
    "10000" "pre" (start rules_ABC)
  = (Raise KeyError, start rules_ABC).
Proof.
  apply (reorder_rules_needs_ids OrderedRemote.handler "Mobile Users" 8
           SecurityRule "/sse/config/v1/security-rules" desired_CAB
           (rules_ABC ++ [[("name", VStr "D"); ("folder", VStr "Mobile Users")]])
           "10000" "pre" [VStr "A"; VStr "B"; VStr "C"; VStr "D"]);
    [reflexivity|repeat constructor|].
  exists [("name", VStr "D"); ("folder", VStr "Mobile Users")].
  split; [|reflexivity]. right. right. right. now left.
Defined.


